(** * pycsou operator algebra: a shallow embedding of [pycsou/abc/operator.py]

    The Python module defines a hierarchy of operator classes ([Map],
    [DiffMap], [Func], ..., [_HomothetyOp]) whose arithmetic ([+], [*],
    scalar scaling), [specialize] and [squeeze] build new operator
    instances by attaching closures to freshly constructed objects.

    The embedding keeps the dynamic structure of the source: classes with
    their bases and class dictionaries, the C3 method resolution order,
    instances as a class tag plus an instance dictionary, exceptions as an
    error result, and Python sets of property names as [gset string]. *)

From Stdlib Require Import ZArith QArith Qabs.
From stdpp Require Import base option list strings gmap sets.

Set Default Proof Using "Type".
Open Scope Z_scope.
Open Scope string_scope.

(** ** Exceptions and results *)

(** The [ValueError]s of the module, told apart by the place that raises
    them. *)
Inductive value_error :=
  | InconsistentSumShapes      (* __add__: "Cannot sum two maps with inconsistent shapes" *)
  | InconsistentComposeShapes  (* __mul__: "Cannot compose two maps with inconsistent shapes" *)
  | CannotSpecialize           (* specialize: "Cannot specialize an object of type ..." *)
  | FunctionalForm             (* Func.__init__: "Functionals must be of the form (1,n)." *)
  | InconsistentSquareShape    (* SquareOp.__init__: "Inconsistent shape ..." *)
  | CstNotReal.                (* _HomothetyOp.__init__: "Argument [cst] must be a real number." *)

Inductive exn :=
  | NotImplementedError
  | ValueError (why : value_error)
  | TypeError
  | NameError
  | IndexError
  | AttributeError
  | ZeroDivisionError
  | RecursionError
  | BackendError.              (* an error raised inside the array backend *)

Inductive result (A : Type) : Type :=
  | Ok (a : A)
  | Raise (e : exn).
Arguments Ok {A} a.
Arguments Raise {A} e.

Definition bind {A B} (r : result A) (k : A → result B) : result B :=
  match r with
  | Ok a => k a
  | Raise e => Raise e
  end.

Notation "'let*' x := r 'in' k" := (bind r (fun x => k))
  (at level 10, x name, r at level 100, k at level 200).
Notation "r ;;; k" := (bind r (fun _ => k))
  (at level 100, k at level 200, right associativity).

Definition is_ok {A} (r : result A) : bool :=
  match r with Ok _ => true | Raise _ => false end.

Definition raises {A} (r : result A) : Prop := ∃ e, r = Raise e.

(** Whether a computation returned, and the exception if it did not. *)
Definition outcome {A} (r : result A) : result unit :=
  match r with Ok _ => Ok tt | Raise e => Raise e end.

#[global] Instance value_error_eq_dec : EqDecision value_error.
Proof. solve_decision. Defined.

#[global] Instance exn_eq_dec : EqDecision exn.
Proof. solve_decision. Defined.

(** ** The class hierarchy *)

(** Every class of the module.  [Property_] is the source's [Property]
    (the plain name is a vernacular keyword). *)
Inductive pyclass :=
  | Property_ | SingledValued | Apply | Differential | Gradient | Adjoint | Proximal
  | Map | DiffMap | Func | ProxFunc | DiffFunc | LinOp | LinFunc
  | SquareOp | NormalOp | SelfAdjointOp | UnitOp | ProjOp | OrthProjOp | PosDefOp
  | _HomothetyOp.

#[global] Instance pyclass_eq_dec : EqDecision pyclass.
Proof. solve_decision. Defined.

(** The base classes, in the order of each [class] statement. *)
Definition bases (c : pyclass) : list pyclass :=
  match c with
  | Property_ => []
  | SingledValued => [Property_]
  | Apply => [Property_]
  | Differential => [Property_]
  | Gradient => [Differential]
  | Adjoint => [Property_]
  | Proximal => [Property_]
  | Map => [Apply]
  | DiffMap => [Map; Differential]
  | Func => [Map; SingledValued]
  | ProxFunc => [Func; Proximal]
  | DiffFunc => [Func; Gradient]
  | LinOp => [DiffMap; Adjoint]
  | LinFunc => [DiffFunc; LinOp]
  | SquareOp => [LinOp]
  | NormalOp => [SquareOp]
  | SelfAdjointOp => [NormalOp]
  | UnitOp => [NormalOp]
  | ProjOp => [SquareOp]
  | OrthProjOp => [ProjOp; SelfAdjointOp]
  | PosDefOp => [SelfAdjointOp]
  | _HomothetyOp => [SelfAdjointOp]
  end.

(** The names bound in each class body. *)
Definition class_dict (c : pyclass) : list string :=
  match c with
  | Property_ =>
      ["_property_list"; "properties"; "has"; "__add__"; "__mul__"; "__rmul__";
       "__pow__"; "__neg__"; "__sub__"; "__truediv__"; "argscale"; "argshift"]
  | SingledValued => ["single_valued"]
  | Apply => ["__call__"; "apply"; "lipschitz"]
  | Differential => ["diff_lipschitz"; "jacobian"]
  | Gradient => ["jacobian"; "gradient"]
  | Adjoint => ["adjoint"]
  | Proximal => ["prox"; "fenchel_prox"]
  | Map => ["__init__"; "shape"; "dim"; "codim"; "squeeze"; "_squeeze"; "lipschitz"; "specialize"]
  | DiffMap => ["__init__"; "squeeze"; "diff_lipschitz"]
  | Func => ["__init__"]
  | ProxFunc => ["__init__"; "__add__"; "__mul__"; "argshift"]
  | DiffFunc => ["__init__"]
  | LinOp =>
      ["__init__"; "squeeze"; "jacobian"; "T"; "svdvals"; "asarray"; "__array__";
       "gram"; "cogram"; "pinv"; "dagger"]
  | LinFunc => ["__init__"; "__add__"]
  | SquareOp => ["__init__"]
  | NormalOp => ["eigvals"; "cogram"]
  | SelfAdjointOp => ["adjoint"; "T"]
  | UnitOp => ["__init__"; "lipschitz"; "pinv"; "dagger"]
  | ProjOp => ["__pow__"]
  | OrthProjOp => ["__init__"; "lipschitz"; "pinv"; "dagger"]
  | PosDefOp => []
  | _HomothetyOp => ["__init__"; "apply"; "adjoint"; "__mul__"]
  end.

(** *** Method resolution order (C3 linearisation) *)

Definition in_tail (c : pyclass) (s : list pyclass) : bool :=
  match s with
  | [] => false
  | _ :: t => bool_decide (c ∈ t)
  end.

(** The first head that is in the tail of no sequence. *)
Fixpoint c3_candidate (heads : list (list pyclass)) (seqs : list (list pyclass))
  : option pyclass :=
  match heads with
  | [] => None
  | [] :: rest => c3_candidate rest seqs
  | (h :: _) :: rest =>
      if forallb (fun s => negb (in_tail h s)) seqs then Some h
      else c3_candidate rest seqs
  end.

Definition drop_head (c : pyclass) (s : list pyclass) : list pyclass :=
  match s with
  | h :: t => if decide (h = c) then t else s
  | [] => []
  end.

Fixpoint c3_merge (fuel : nat) (seqs : list (list pyclass)) : option (list pyclass) :=
  match fuel with
  | O => None
  | S fuel' =>
      if forallb (fun s => bool_decide (s = [])) seqs then Some []
      else
        c ← c3_candidate seqs seqs;
        rest ← c3_merge fuel' (drop_head c <$> seqs);
        Some (c :: rest)
  end.

Fixpoint c3_linearize (depth : nat) (c : pyclass) : option (list pyclass) :=
  match depth with
  | O => None
  | S d =>
      ls ← mapM (c3_linearize d) (bases c);
      rest ← c3_merge 64 (ls ++ [bases c]);
      Some (c :: rest)
  end.

(** [cls.__mro__] without the final [object]. *)
Definition mro (c : pyclass) : list pyclass := default [] (c3_linearize 16 c).

Definition issubclass (c d : pyclass) : bool := bool_decide (d ∈ mro c).

(** The class whose body provides [name] for instances of [c]. *)
Definition mro_lookup (c : pyclass) (name : string) : option pyclass :=
  List.find (fun k => bool_decide (name ∈ class_dict k)) (mro c).

(** *** [Property.properties] and [Property.has] *)

Definition _property_list : gset string :=
  list_to_set ["apply"; "_lipschitz"; "jacobian"; "_diff_lipschitz";
               "single_valued"; "gradient"; "prox"; "adjoint"].

(** [dir(cls)], up to the names every [object] has (none of which is in
    [_property_list]). *)
Definition dir (c : pyclass) : gset string :=
  list_to_set (mro c ≫= class_dict).

Definition properties (c : pyclass) : gset string := dir c ∩ _property_list.

(** [cls.has(prop)] computes [set(prop) <= cls.properties()].  The callers
    pass a tuple of names or, in [specialize], one bare string, whose
    [set(...)] is the set of its one-character substrings. *)
Inductive has_arg :=
  | HasTuple (names : list string)
  | HasStr (s : string).

Fixpoint chars (s : string) : list string :=
  match s with
  | EmptyString => []
  | String a rest => String a EmptyString :: chars rest
  end.

Definition has (c : pyclass) (prop : has_arg) : bool :=
  match prop with
  | HasTuple names => bool_decide (list_to_set names ⊆ properties c)
  | HasStr s => bool_decide (list_to_set (chars s) ⊆ properties c)
  end.

(** The classes tried by [+] and [*] when resolving the kind of a result. *)
Definition _base_operators : list pyclass :=
  [Map; DiffMap; Func; DiffFunc; ProxFunc; LinOp; LinFunc].

(** ** The host: numbers, arrays and set iteration *)

Inductive binop := Add | Sub | Mul | Div | Pow.

(** What the engine needs from Python and from the array backend.  Numbers
    are [scalar], arrays are [arr]; the engine never looks inside either.
    [set_iter] is the order in which a [for] loop visits a set of strings:
    some enumeration of the set, which the language does not fix. *)
Class Host := {
  scalar : Type;
  arr : Type;
  inf : scalar;                                   (* np.infty *)
  of_Z : Z → scalar;                              (* an integer literal *)
  s_abs : scalar → scalar;                        (* np.abs *)
  s_is_zero : scalar → bool;                      (* x == 0 *)
  s_neg : scalar → scalar;                        (* -x on a number *)
  a_neg : arr → result arr;                       (* -x on an array *)
  a_is_zero : arr → result bool;                  (* bool(x == 0) on an array *)
  s_int : scalar → option Z;                      (* the value, when type(x) is int *)
  s_op : binop → scalar → scalar → result scalar; (* number op number *)
  a_op : binop → arr → arr → result arr;          (* array op array *)
  sa_op : binop → scalar → arr → result arr;      (* number op array *)
  as_op : binop → arr → scalar → result arr;      (* array op number *)
  astype_like : arr → arr → arr;                  (* x.astype(y.dtype) *)
  arr_shape : arr → list Z;                       (* x.shape *)
  flatten : arr → arr;                            (* x.reshape(-1) *)
  set_iter : gset string → list string;
  set_iter_perm : ∀ X, set_iter X ≡ₚ elements X;
}.

Section Values.
Context `{H : Host}.

(** ** Run-time values and operator instances *)

(** A bound method takes arrays (and, for [prox], a number), as the
    methods of the module do.  [VMethod2] records the names of its two
    parameters, which [fenchel_prox] passes by keyword.  An instance is its
    class, whether its type is a user-written subclass of that class (one
    that only overrides capability methods, held in the dictionary), and
    its instance dictionary. *)
#[local] Unset Elimination Schemes.
Inductive value : Type :=
  | VNone
  | VBool (b : bool)
  | VNum (s : scalar)
  | VArr (a : arr)
  | VTuple (t : list Z)
  | VMethod0 (m : result value)
  | VMethod1 (m : arr → result value)
  | VMethod2 (params : string * string) (m : arr → scalar → result value)
  | VOp (o : op)
with op : Type :=
  | Instance (cls : pyclass) (subclassed : bool) (dict : gmap string value).
#[local] Set Elimination Schemes.

Definition class_of (o : op) : pyclass := let 'Instance c _ _ := o in c.
Definition subclassed (o : op) : bool := let 'Instance _ u _ := o in u.
Definition dict_of (o : op) : gmap string value := let 'Instance _ _ d := o in d.

(** [setattr(obj, name, v)] *)
Definition setattr (o : op) (name : string) (v : value) : op :=
  let 'Instance c u d := o in Instance c u (<[name := v]> d).

Definition isinstance (o : op) (c : pyclass) : bool := issubclass (class_of o) c.

(** [isinstance(v, nb.Real)]: Python numbers, [bool] included. *)
Definition as_real (v : value) : option scalar :=
  match v with
  | VNum s => Some s
  | VBool b => Some (of_Z (if b then 1 else 0))
  | _ => None
  end.

(** [obj.properties()]: a class method, so it only sees the class. *)
Definition properties_of (o : op) : gset string := properties (class_of o).

(** *** Calling *)

(** [f(x)], [f(x, tau)], [f()] on run-time values.  Method bodies are
    array code: an argument that is not an array (a number where one is
    expected) is a [TypeError]. *)
Definition call0 (f : value) : result value :=
  match f with
  | VMethod0 m => m
  | _ => Raise TypeError
  end.

Definition call1 (f : value) (x : value) : result value :=
  match f with
  | VMethod1 m => match x with VArr a => m a | _ => Raise TypeError end
  | _ => Raise TypeError
  end.

Definition call2 (f : value) (x tau : value) : result value :=
  match f with
  | VMethod2 _ m =>
      match x, as_real tau with
      | VArr a, Some t => m a t
      | _, _ => Raise TypeError
      end
  | _ => Raise TypeError
  end.

(** [f(arr=x, tau=t)] *)
Definition call2_kw (f : value) (x tau : value) : result value :=
  match f with
  | VMethod2 params _ =>
      if decide (params = ("arr", "tau")) then call2 f x tau else Raise TypeError
  | _ => Raise TypeError
  end.

(** [v.name] on a run-time value: only operator instances carry the
    attributes the engine asks for. *)
Definition dict_lookup (self : op) (name : string) : result value :=
  match dict_of self !! name with
  | Some v => Ok v
  | None => Raise AttributeError
  end.

(** *** Shapes *)

(** The [shape] property: [self._shape]. *)
Definition shape (self : op) : result value :=
  match dict_of self !! "_shape" with
  | Some v => Ok v
  | None => Raise AttributeError
  end.

(** [t[i]] for a non-negative literal index. *)
Definition getitem (t : value) (i : nat) : result Z :=
  match t with
  | VTuple l => match l !! i with Some z => Ok z | None => Raise IndexError end
  | _ => Raise TypeError
  end.

(** [self.shape[i]] *)
Definition shape_at (self : op) (i : nat) : result Z :=
  let* s := shape self in getitem s i.

End Values.

(** ** What the module imports

    [pycsou.util.broadcast_sum_shapes] and [ExplicitLinFunc],
    [IdentityOperator] of [pycsou.linop.base] are not part of this module;
    they are taken as given.  So is [host_binop], the arithmetic of Python
    and of the array backend on operands that are neither two numbers, two
    arrays, a number and an array, nor led by an operator instance.
    [base_order] is the order in which a loop visits the frozen set
    [_base_operators]. *)
Class Imports `{H : Host} := {
  broadcast_sum_shapes : value → value → result (bool * value);
  ExplicitLinFunc : value → result op;
  IdentityOperator : value → result op;
  host_binop : binop → value → value → result value;
  base_order : list pyclass;
  base_order_perm : base_order ≡ₚ _base_operators;
}.

Section Engine.
Context `{H : Host} `{I : !Imports}.

(** ** Constructors *)

(** What follows the first occurrence of [k] in a list of classes. *)
Fixpoint after (k : pyclass) (l : list pyclass) : list pyclass :=
  match l with
  | [] => []
  | c :: rest => if decide (c = k) then rest else after k rest
  end.

(** The class after [k] in [full] whose body has an [__init__]: what
    [super(k, self).__init__] resolves to when [full] is
    [type(self).__mro__]. *)
Definition next_init (full : list pyclass) (k : pyclass) : option pyclass :=
  List.find (fun c => bool_decide ("__init__" ∈ class_dict c)) (after k full).

Definition first_init (full : list pyclass) : option pyclass :=
  List.find (fun c => bool_decide ("__init__" ∈ class_dict c)) full.

(** [tuple(shape)] *)
Definition as_tuple (v : value) : result (list Z) :=
  match v with
  | VTuple t => Ok t
  | _ => Raise TypeError
  end.

(** The body of [k.__init__(self, shape)], acting on the instance
    dictionary [self].  [super_init] is [super(k, self).__init__] and
    [init_of c] is the explicit call [c.__init__(self, ...)]. *)
Definition init_body
    (super_init : gmap string value → value → result (gmap string value))
    (init_of : pyclass → gmap string value → value → result (gmap string value))
    (k : pyclass) (self : gmap string value) (shape : value)
  : result (gmap string value) :=
  match k with
  | Map =>
      let* t := as_tuple shape in                         (* len(shape) *)
      if bool_decide (2 < length t)%nat then Raise NotImplementedError
      else Ok (<["_lipschitz" := VNum inf]> (<["_shape" := shape]> self))
  | DiffMap =>
      let* self := super_init self shape in
      Ok (<["_diff_lipschitz" := VNum inf]> self)
  | Func =>
      let* t := as_tuple shape in
      let* t :=
        if bool_decide (length t = 1%nat) then Ok (1 :: t)
        else
          match t with
          | [] => Raise IndexError
          | c :: _ => if bool_decide (1 < c) then Raise (ValueError FunctionalForm)
                      else Ok t
          end in
      super_init self (VTuple t)
  | ProxFunc | DiffFunc => super_init self shape
  | LinOp =>
      let* self := super_init self shape in
      Ok (<["_diff_lipschitz" := VNum (of_Z 0)]> self)
  | LinFunc =>
      let* self := init_of DiffFunc self shape in
      init_of LinOp self shape
  | SquareOp =>
      let* t := as_tuple shape in
      match t with
      | [] => Raise IndexError
      | [c] => super_init self (VTuple [c; c])
      | c :: d :: _ =>
          if bool_decide (c ≠ d) then Raise (ValueError InconsistentSquareShape)
          else super_init self (VTuple [c; c])
      end
  | UnitOp | OrthProjOp =>
      let* self := super_init self shape in
      Ok (<["_lipschitz" := VNum (of_Z 1)]> self)
  | _HomothetyOp => Raise TypeError   (* missing required argument [dim] *)
  | _ => Raise TypeError              (* no [__init__] in this class body *)
  end.

(** [k.__init__(self, shape)] for an object whose type has method
    resolution order [full].  [fuel] bounds the chain of initialisers. *)
Fixpoint run_init (fuel : nat) (full : list pyclass) (k : pyclass)
    (self : gmap string value) (shape : value) : result (gmap string value) :=
  match fuel with
  | O => Raise RecursionError
  | S fuel' =>
      init_body
        (fun self shape =>
           match next_init full k with
           | Some k' => run_init fuel' full k' self shape
           | None => Raise TypeError    (* object.__init__() takes no argument *)
           end)
        (run_init fuel' full) k self shape
  end.

(** [c(shape)]: allocate an instance of [c] and run its initialiser. *)
Definition construct (c : pyclass) (shape : value) : result op :=
  match first_init (mro c) with
  | Some k =>
      let* d := run_init 32 (mro c) k ∅ shape in
      Ok (Instance c false d)
  | None => Raise TypeError
  end.

(** [_HomothetyOp(cst, dim=dim)] *)
Definition construct_HomothetyOp (cst : value) (dim : Z) : result op :=
  match as_real cst with
  | None => Raise (ValueError CstNotReal)
  | Some c =>
      match next_init (mro _HomothetyOp) _HomothetyOp with
      | Some k =>
          let* d := run_init 32 (mro _HomothetyOp) k ∅ (VTuple [dim; dim]) in
          Ok (Instance _HomothetyOp false
                (<["_diff_lipschitz" := VNum (of_Z 0)]>
                   (<["_lipschitz" := VNum (s_abs c)]> (<["_cst" := cst]> d))))
      | None => Raise TypeError
      end
  end.


(** A [for] loop whose body may raise. *)
Fixpoint for_each {A B} (l : list A) (body : B → A → result B) (b : B) : result B :=
  match l with
  | [] => Ok b
  | a :: rest => let* b' := body b a in for_each rest body b'
  end.

Section Methods.
(** [dyn op u v] is Python's [u op v] on run-time values.  It is tied to
    the engine's own [__add__] and [__mul__] further down ([binop]); until
    then the methods take it as given. *)
Variable dyn : binop → value → value → result value.

(** ** Attribute lookup *)

Definition not_implemented1 : value := VMethod1 (fun _ => Raise NotImplementedError).

(** [_HomothetyOp.apply] and [_HomothetyOp.adjoint]:
    [(self._cst * arr).astype(arr.dtype)] *)
Definition HomothetyOp_scale (self : op) : value :=
  VMethod1 (fun a =>
    let* c := dict_lookup self "_cst" in
    let* r := dyn Mul c (VArr a) in
    match r with
    | VArr r => Ok (VArr (astype_like r a))
    | _ => Raise AttributeError
    end).

(** The bound method [name] got from class [k], for the methods that call
    no other method.  The algebra methods ([__add__], [squeeze], ...) are
    functions of this development rather than values, and get no entry. *)
Definition class_attr0 (self : op) (k : pyclass) (name : string) : result value :=
  if decide (name = "apply") then
    match k with
    | Apply => Ok not_implemented1
    | _HomothetyOp => Ok (HomothetyOp_scale self)
    | _ => Raise AttributeError
    end
  else if decide (name = "gradient") then
    match k with
    | Gradient => Ok not_implemented1
    | _ => Raise AttributeError
    end
  else if decide (name = "prox") then
    match k with
    | Proximal => Ok (VMethod2 ("arr", "tau") (fun _ _ => Raise NotImplementedError))
    | _ => Raise AttributeError
    end
  else if decide (name = "single_valued") then
    match k with
    | SingledValued => Ok (VMethod0 (Ok (VBool true)))
    | _ => Raise AttributeError
    end
  else if decide (name = "asarray") then
    match k with
    | LinOp => Ok (VMethod0 (Ok VNone))         (* the body is [pass] *)
    | _ => Raise AttributeError
    end
  else if decide (name = "lipschitz") then
    match k with
    | Apply => Ok (VMethod0 (Raise NotImplementedError))
    | Map | UnitOp | OrthProjOp => Ok (VMethod0 (dict_lookup self "_lipschitz"))
    | _ => Raise AttributeError
    end
  else if decide (name = "diff_lipschitz") then
    match k with
    | Differential => Ok (VMethod0 (Raise NotImplementedError))
    | DiffMap => Ok (VMethod0 (dict_lookup self "_diff_lipschitz"))
    | _ => Raise AttributeError
    end
  else Raise AttributeError.

Definition getattr0 (self : op) (name : string) : result value :=
  match dict_of self !! name with
  | Some v => Ok v
  | None =>
      match mro_lookup (class_of self) name with
      | Some k => class_attr0 self k name
      | None => Raise AttributeError
      end
  end.

(** The same for every modelled method: [jacobian] and [adjoint] may call
    [gradient] and [apply]. *)
Definition class_attr (self : op) (k : pyclass) (name : string) : result value :=
  if decide (name = "jacobian") then
    match k with
    | Differential => Ok not_implemented1
    | Gradient =>
        (* return ExplicitLinFunc(self.gradient(arr)) *)
        Ok (VMethod1 (fun a =>
              let* g := getattr0 self "gradient" in
              let* v := call1 g (VArr a) in
              let* o := ExplicitLinFunc v in
              Ok (VOp o)))
    | LinOp => Ok (VMethod1 (fun _ => Ok (VOp self)))      (* return self *)
    | _ => Raise AttributeError
    end
  else if decide (name = "adjoint") then
    match k with
    | Adjoint => Ok not_implemented1
    | SelfAdjointOp =>
        (* return self.apply(arr) *)
        Ok (VMethod1 (fun a => let* m := getattr0 self "apply" in call1 m (VArr a)))
    | _HomothetyOp => Ok (HomothetyOp_scale self)
    | _ => Raise AttributeError
    end
  else class_attr0 self k name.

(** [getattr(self, name)]: the instance dictionary first, then the classes
    of the method resolution order. *)
Definition getattr (self : op) (name : string) : result value :=
  match dict_of self !! name with
  | Some v => Ok v
  | None =>
      match mro_lookup (class_of self) name with
      | Some k => class_attr self k name
      | None => Raise AttributeError
      end
  end.

(** [v.name] for any run-time value: arrays and numbers have none of the
    attributes the engine asks for. *)
Definition getattr_v (v : value) (name : string) : result value :=
  match v with
  | VOp o => getattr o name
  | _ => Raise AttributeError
  end.

(** [self.lipschitz()] and [self.diff_lipschitz()] *)
Definition lipschitz (self : op) : result value :=
  let* m := getattr self "lipschitz" in call0 m.

Definition diff_lipschitz (self : op) : result value :=
  let* m := getattr self "diff_lipschitz" in call0 m.

(** ** [Map.specialize] and [squeeze] *)

(** The closure [lambda _, x: self.jacobian(x).asarray().reshape(-1)]. *)
Definition flattened_jacobian (self : op) : value :=
  VMethod1 (fun x =>
    let* j := getattr self "jacobian" in
    let* J := call1 j (VArr x) in
    let* m := getattr_v J "asarray" in
    let* A := call0 m in
    match A with
    | VArr a => Ok (VArr (flatten a))
    | _ => Raise AttributeError
    end).

Definition specialize (self : op) (cast_to : pyclass) : result op :=
  if bool_decide (cast_to = class_of self) && negb (subclassed self) then Ok self
  else if bool_decide (properties cast_to ⊂ properties_of self)
  then Raise (ValueError CannotSpecialize)
  else
    let* sh := shape self in
    let* obj := construct cast_to sh in
    for_each (set_iter (properties_of self))
      (fun obj prop =>
         if bool_decide (prop = "jacobian") && has cast_to (HasStr "single_valued")
         then Ok (setattr obj "gradient" (flattened_jacobian self))
         else let* v := getattr self prop in Ok (setattr obj prop v))
      obj.

Definition _squeeze (self : op) (out : pyclass) : result op :=
  let* c := shape_at self 0 in
  if bool_decide (c = 1) then specialize self out else Ok self.

(** The [out] class that [squeeze] passes to [_squeeze], for the [squeeze]
    found along the method resolution order of [c]: [Map.squeeze],
    [DiffMap.squeeze] or [LinOp.squeeze]. *)
Definition squeeze_out (c : pyclass) : option pyclass :=
  match mro_lookup c "squeeze" with
  | Some Map => Some Func
  | Some DiffMap => Some DiffFunc
  | Some LinOp => Some LinFunc
  | _ => None
  end.

(** [self.squeeze()] *)
Definition squeeze (self : op) : result op :=
  match squeeze_out (class_of self) with
  | Some out => _squeeze self out
  | None => Raise AttributeError
  end.

(** ** [Property.__add__] *)

(** [for Op in _base_operators: if Op.properties() == shared_props: break]
    leaves [Op] at the first match, or at the last class visited. *)
Definition resolve_op (shared_props : gset string) : option pyclass :=
  match List.find (fun Op => bool_decide (properties Op = shared_props)) base_order with
  | Some Op => Some Op
  | None => last base_order
  end.

(** [shared_props.discard("jacobian")] for the three kinds that rebuild
    their Jacobian, then [shared_props.discard("single_valued")]. *)
Definition synthesized_props (Op : pyclass) (shared_props : gset string) : gset string :=
  (if bool_decide (Op ∈ [LinOp; DiffFunc; LinFunc])
   then shared_props ∖ {["jacobian"]} else shared_props) ∖ {["single_valued"]}.

(** The body of [composite_method], for the value [prop] has when the
    method is called. *)
Definition composite_method (self other : op) (prop : string) : value :=
  VMethod1 (fun arr =>
    let* m1 := getattr self prop in
    let* u := call1 m1 (VArr arr) in
    let* m2 := getattr other prop in
    let* v := call1 m2 (VArr arr) in
    dyn Add u v).

(** [composite_method] reads the loop variable [prop] when it is called,
    that is after the loop: every method attached by the loop sees the
    name visited last. *)
Definition add_loop (self other : op) (order : list string) (out_op : op) : result op :=
  for_each order
    (fun out_op prop =>
       if bool_decide (prop ∈ ["_lispchitz"; "_diff_lipschitz"]) then
         let* a := getattr self prop in
         let* b := getattr other prop in
         let* v := dyn Add a b in
         Ok (setattr out_op prop v)
       else
         Ok (setattr out_op prop (composite_method self other (default prop (last order)))))
    out_op.

Definition Property_add (self other : value) : result op :=
  match other with
  | VOp other =>
      if negb (isinstance other Map) then Raise NotImplementedError
      else
        let* s1 := (match self with
                    | VOp f => shape f
                    | VArr a => Ok (VTuple (arr_shape a))
                    | _ => Raise AttributeError
                    end) in
        let* s2 := shape other in
        let* vo := broadcast_sum_shapes s1 s2 in
        let '(valid_shapes, out_shape) := vo in
        if negb valid_shapes then Raise (ValueError InconsistentSumShapes)
        else
          match self with
          | VOp self =>
              let shared_props := (properties_of self ∩ properties_of other) ∖ {["prox"]} in
              match resolve_op shared_props with
              | None => Raise NameError
              | Some Op =>
                  let shared_props := synthesized_props Op shared_props in
                  let* out_op := construct Op out_shape in
                  let* out_op := add_loop self other (set_iter shared_props) out_op in
                  squeeze out_op
              end
          | _ => Raise AttributeError        (* self.properties() *)
          end
  | _ => Raise NotImplementedError
  end.

(** ** [Property.__mul__] *)

(** The branches of the loop over [shared_props]. *)
Definition mul_step (self other : op) (out_op : op) (prop : string) : result op :=
  if decide (prop = "apply") then
    (* lambda obj, arr: self.apply(other.apply(arr)) *)
    Ok (setattr out_op "apply" (VMethod1 (fun arr =>
          let* f := getattr self "apply" in
          let* g := getattr other "apply" in
          let* y := call1 g (VArr arr) in
          call1 f y)))
  else if decide (prop = "_lipschitz") then
    let* a := getattr self "_lipschitz" in
    let* b := getattr other "_lipschitz" in
    let* v := dyn Mul a b in
    Ok (setattr out_op "_lipschitz" v)
  else if decide (prop = "_diff_lipschitz") then
    if isinstance self LinOp then
      let* a := getattr self "_lipschitz" in
      let* b := getattr other "_diff_lipschitz" in
      let* v := dyn Mul a b in
      Ok (setattr out_op "_diff_lipschitz" v)
    else if isinstance other LinOp then
      let* a := getattr self "_diff_lipschitz" in
      let* b := getattr other "_lipschitz" in
      let* b2 := dyn Pow b (VNum (of_Z 2)) in
      let* v := dyn Mul a b2 in
      Ok (setattr out_op "_diff_lipschitz" v)
    else Ok (setattr out_op "_diff_lipschitz" (VNum inf))
  else if decide (prop = "gradient") then
    (* other.jacobian(arr).adjoint(self.gradient(other.apply(arr))) *)
    Ok (setattr out_op "gradient" (VMethod1 (fun arr =>
          let* j := getattr other "jacobian" in
          let* J := call1 j (VArr arr) in
          let* adj := getattr_v J "adjoint" in
          let* grad := getattr self "gradient" in
          let* g := getattr other "apply" in
          let* y := call1 g (VArr arr) in
          let* z := call1 grad y in
          call1 adj z)))
  else if decide (prop = "jacobian") then
    (* self.jacobian(other.apply(arr)) * other.jacobian(arr) *)
    Ok (setattr out_op "jacobian" (VMethod1 (fun arr =>
          let* jf := getattr self "jacobian" in
          let* g := getattr other "apply" in
          let* y := call1 g (VArr arr) in
          let* Jf := call1 jf y in
          let* jg := getattr other "jacobian" in
          let* Jg := call1 jg (VArr arr) in
          dyn Mul Jf Jg)))
  else if decide (prop = "adjoint") then
    (* lambda obj, arr: other.adjoint(self.adjoint(arr)) *)
    Ok (setattr out_op "adjoint" (VMethod1 (fun arr =>
          let* g := getattr other "adjoint" in
          let* f := getattr self "adjoint" in
          let* y := call1 f (VArr arr) in
          call1 g y)))
  else Ok out_op.

(** [Property.__mul__] for an [other] that is not a real number. *)
Definition Property_mul_map (self : op) (other : value) : result op :=
  match other with
  | VOp other =>
      if negb (isinstance other Map) then Raise NotImplementedError
      else
        let* a := shape_at self 1 in
        let* b := shape_at other 0 in
        if bool_decide (a ≠ b) then Raise (ValueError InconsistentComposeShapes)
        else
          let* m := shape_at self 0 in
          let* n := shape_at other 1 in
          let out_shape := VTuple [m; n] in
          let shared_props := (properties_of self ∩ properties_of other) ∖ {["prox"]} in
          let* c := shape_at self 0 in
          let shared_props :=
            if bool_decide (c = 1) && bool_decide ("jacobian" ∈ shared_props)
            then shared_props ∪ {["gradient"; "single_valued"]} else shared_props in
          match resolve_op shared_props with
          | None => Raise NameError
          | Some Op =>
              let shared_props := synthesized_props Op shared_props in
              let* out_op := construct Op out_shape in
              let* out_op := for_each (set_iter shared_props) (mul_step self other) out_op in
              squeeze out_op
          end
  | _ => Raise NotImplementedError
  end.

(** [_HomothetyOp.__mul__], given the [Property.__mul__] it calls: the
    final [return outop] names a variable that does not exist. *)
Definition HomothetyOp_mul_with (Property_mul : op → value → result op)
    (self : op) (other : value) : result op :=
  let* out_op := Property_mul self other in
  let* out_op :=
    match other with
    | VOp g =>
        if isinstance g ProxFunc then
          let* _ := specialize out_op ProxFunc in
          (* lambda obj, arr, tau: other.prox(arr, self._cst * tau) *)
          Ok (setattr out_op "prox" (VMethod2 ("arr", "tau") (fun arr tau =>
                let* p := getattr g "prox" in
                let* c := getattr self "_cst" in
                let* t := dyn Mul c (VNum tau) in
                call2 p (VArr arr) t)))
        else Ok out_op
    | _ => Ok out_op
    end in
  Raise NameError.

Definition Property_mul (self : op) (other : value) : result op :=
  match as_real other with
  | Some _ =>
      let* dim := shape_at self 0 in
      let* hmap := construct_HomothetyOp other dim in
      (* hmap.__mul__(self), where self is no number *)
      HomothetyOp_mul_with Property_mul_map hmap (VOp self)
  | None => Property_mul_map self other
  end.

Definition HomothetyOp_mul : op → value → result op :=
  HomothetyOp_mul_with Property_mul.

(** ** The overrides of [ProxFunc] and [LinFunc] *)

Definition ProxFunc_add (self other : value) : result op :=
  let* f := Property_add self other in
  let* f :=
    match other with
    | VOp g =>
        if isinstance g LinFunc then
          let* f := specialize f ProxFunc in
          (* lambda _, x, tau: self.prox(x - tau * other.asarray(), tau) *)
          Ok (setattr f "prox" (VMethod2 ("x", "tau") (fun x tau =>
                let* p := getattr_v self "prox" in
                let* m := getattr g "asarray" in
                let* A := call0 m in
                let* tA := dyn Mul (VNum tau) A in
                let* y := dyn Sub (VArr x) tA in
                call2 p y (VNum tau))))
        else Ok f
    | _ => Ok f
    end in
  squeeze f.

(** [LinFunc.__add__]: [return ProxFunc.__add__(other, self)] *)
Definition LinFunc_add (self : op) (other : value) : result op :=
  ProxFunc_add other (VOp self).

Definition ProxFunc_mul (self : op) (other : value) : result op :=
  let* f := Property_mul self other in
  let* f :=
    match other with
    | VOp U =>
        if isinstance U UnitOp then
          let* _ := specialize f ProxFunc in      (* the result is dropped *)
          (* lambda obj, arr, tau: other.adjoint(self.prox(other.apply(arr), tau)) *)
          Ok (setattr f "prox" (VMethod2 ("arr", "tau") (fun arr tau =>
                let* adj := getattr U "adjoint" in
                let* p := getattr self "prox" in
                let* a := getattr U "apply" in
                let* y := call1 a (VArr arr) in
                let* z := call2 p y (VNum tau) in
                call1 adj z)))
        else if isinstance U _HomothetyOp then
          let* _ := specialize f ProxFunc in
          (* (1 / other._cst) * self.prox(other._cst * arr, tau * (other._cst) ** 2) *)
          Ok (setattr f "prox" (VMethod2 ("arr", "tau") (fun arr tau =>
                let* c := getattr U "_cst" in
                let* r := dyn Div (VNum (of_Z 1)) c in
                let* p := getattr self "prox" in
                let* c1 := getattr U "_cst" in
                let* y := dyn Mul c1 (VArr arr) in
                let* c2 := getattr U "_cst" in
                let* c3 := dyn Pow c2 (VNum (of_Z 2)) in
                let* t := dyn Mul (VNum tau) c3 in
                let* z := call2 p y t in
                dyn Mul r z)))
        else Ok f
    | _ => Ok f
    end in
  squeeze f.

(** ** Dispatch on the class of the receiver *)

Definition op_add (self : op) (other : value) : result op :=
  match mro_lookup (class_of self) "__add__" with
  | Some LinFunc => LinFunc_add self other
  | Some ProxFunc => ProxFunc_add (VOp self) other
  | Some Property_ => Property_add (VOp self) other
  | _ => Raise AttributeError
  end.

Definition op_mul (self : op) (other : value) : result op :=
  match mro_lookup (class_of self) "__mul__" with
  | Some ProxFunc => ProxFunc_mul self other
  | Some _HomothetyOp => HomothetyOp_mul self other
  | Some Property_ => Property_mul self other
  | _ => Raise AttributeError
  end.

(** [__rmul__], [__neg__], [__truediv__], [__sub__] *)
Definition op_rmul (self : op) (other : value) : result op := op_mul self other.

Definition op_neg (self : op) : result op := op_mul self (VNum (of_Z (-1))).

Definition op_truediv (self : op) (scalar : value) : result op :=
  match as_real scalar with
  | Some _ =>
      let* r := dyn Div (VNum (of_Z 1)) scalar in
      op_mul self r
  | None => Raise NotImplementedError
  end.

(** [other.__neg__()] for an [other] that is no operator instance: numbers
    and arrays are negated by the host, the other values have no
    [__neg__]. *)
Definition value_neg (other : value) : result value :=
  match other with
  | VNum c => Ok (VNum (s_neg c))
  | VBool b => Ok (VNum (s_neg (of_Z (if b then 1 else 0))))
  | VArr a => let* r := a_neg a in Ok (VArr r)
  | _ => Raise AttributeError
  end.

(** [self.__add__(other.__neg__())] *)
Definition op_sub (self : op) (other : value) : result op :=
  match other with
  | VOp g => let* n := op_neg g in op_add self (VOp n)
  | _ => let* n := value_neg other in op_add self n
  end.

(** ** [__pow__] *)

Fixpoint repeat_mul (n : nat) (self exp_map : op) : result op :=
  match n with
  | O => Ok exp_map
  | S n' => let* exp_map := op_mul self (VOp exp_map) in repeat_mul n' self exp_map
  end.

Definition Property_pow (self : op) (power : value) : result op :=
  match power with
  | VNum p =>
      match s_int p with
      | Some k =>
          if bool_decide (k = 0) then let* sh := shape self in IdentityOperator sh
          else repeat_mul (Z.to_nat (k - 1)) self self     (* for i in range(1, power) *)
      | None => Raise NotImplementedError
      end
  | _ => Raise NotImplementedError
  end.

(** [ProjOp.__pow__]: the test [power == 0] is made by the host on a
    number and, entry by entry, on an array, whose truth value it then
    takes; any other value is not equal to 0. *)
Definition ProjOp_pow (self : op) (power : value) : result op :=
  match as_real power with
  | Some p => if s_is_zero p then let* sh := shape self in IdentityOperator sh else Ok self
  | None =>
      match power with
      | VArr a =>
          let* z := a_is_zero a in
          if z then let* sh := shape self in IdentityOperator sh else Ok self
      | _ => Ok self
      end
  end.

Definition op_pow (self : op) (power : value) : result op :=
  match mro_lookup (class_of self) "__pow__" with
  | Some ProjOp => ProjOp_pow self power
  | Some Property_ => Property_pow self power
  | _ => Raise AttributeError
  end.

(** ** [Proximal.fenchel_prox] *)

(** [arr - sigma * self.prox(arr=arr / sigma, tau=1 / sigma)] *)
Definition Proximal_fenchel_prox (self : op) (arr sigma : value) : result value :=
  let* prox := getattr self "prox" in
  let* y := dyn Div arr sigma in
  let* t := dyn Div (VNum (of_Z 1)) sigma in
  let* p := call2_kw prox y t in
  let* q := dyn Mul sigma p in
  dyn Sub arr q.

Definition fenchel_prox (self : op) (arr sigma : value) : result value :=
  match mro_lookup (class_of self) "fenchel_prox" with
  | Some Proximal => Proximal_fenchel_prox self arr sigma
  | _ => Raise AttributeError
  end.

End Methods.

(** ** Python's binary operators on run-time values

    [u op v] calls the operator method of an operator instance on the
    left, the reflected [__rmul__] of one on the right of a number, and the
    host's arithmetic otherwise.  The methods synthesized by the engine add
    and multiply what their operands return, so the engine and this
    function call each other; [fuel] bounds the depth of these calls. *)
Definition lift_op (r : result op) : result value := let* o := r in Ok (VOp o).

Fixpoint binop_eval (fuel : nat) (o : binop) (u v : value) : result value :=
  match fuel with
  | O => Raise RecursionError
  | S n =>
      let dyn := binop_eval n in
      match u with
      | VOp f =>
          lift_op match o with
                  | Add => op_add dyn f v
                  | Sub => op_sub dyn f v
                  | Mul => op_mul dyn f v
                  | Div => op_truediv dyn f v
                  | Pow => op_pow dyn f v
                  end
      | _ =>
          match as_real u, v with
          | Some a, VOp g =>
              match o with
              | Mul => lift_op (op_rmul dyn g u)
              | _ => Raise TypeError          (* no other reflected method *)
              end
          | Some a, VArr y => let* r := sa_op o a y in Ok (VArr r)
          | Some a, _ =>
              match as_real v with
              | Some b => let* r := s_op o a b in Ok (VNum r)
              | None => host_binop o u v
              end
          | None, _ =>
              match u, v with
              | VArr x, VArr y => let* r := a_op o x y in Ok (VArr r)
              | VArr x, _ =>
                  match as_real v with
                  | Some b => let* r := as_op o x b in Ok (VArr r)
                  | None => host_binop o u v
                  end
              | _, _ => host_binop o u v
              end
          end
      end
  end.

End Engine.

(** ** Vocabulary of the statements below *)

(** The six capabilities that are methods. *)
Definition capability_names : gset string :=
  list_to_set ["apply"; "jacobian"; "single_valued"; "gradient"; "prox"; "adjoint"].

(** The functional counterpart of a base kind, as [squeeze] is documented:
    a map becomes a functional, a differentiable map a differentiable
    functional, a linear operator a linear functional; the functional
    kinds are their own counterpart. *)
Definition functional_counterpart (c : pyclass) : pyclass :=
  match c with
  | Map => Func
  | DiffMap => DiffFunc
  | LinOp => LinFunc
  | c => c
  end.

(** An instance as the engine builds them: of a base kind, of exactly that
    class, with the bound the constructor wrote and no [lipschitz] of its
    own. *)
Definition engine_built `{H : Host} (o : op) : Prop :=
  class_of o ∈ _base_operators ∧ subclassed o = false ∧
  dict_of o !! "_lipschitz" = Some (VNum inf) ∧ dict_of o !! "lipschitz" = None.

(** The capabilities [__mul__] works with: the shared ones, promoted by
    [gradient] and [single_valued] for a functional on the left. *)
Definition mul_shared `{H : Host} (self other : op) (c : Z) : gset string :=
  let shared_props := (properties_of self ∩ properties_of other) ∖ {["prox"]} in
  if bool_decide (c = 1) && bool_decide ("jacobian" ∈ shared_props)
  then shared_props ∪ {["gradient"; "single_valued"]} else shared_props.

(** [self.name(x)] and [self.prox(x, tau)] *)
Definition call_method `{H : Host} `{I : !Imports}
    (dyn : binop → value → value → result value)
    (self : op) (name : string) (x : value) : result value :=
  let* m := getattr dyn self name in call1 m x.

Definition call_prox `{H : Host} `{I : !Imports}
    (dyn : binop → value → value → result value)
    (self : op) (x tau : value) : result value :=
  let* m := getattr dyn self "prox" in call2 m x tau.

(** ** A concrete host: exact extended rationals and lists

    Used to run the engine on explicit operators.  Numbers are rationals
    with the two infinities and a not-a-number; arrays are lists of
    numbers combined entry by entry. *)
Module Toy.

Inductive num := Fin (q : Q) | Inf | NegInf | NaN.

Definition sgn (x : num) : Z :=
  match x with
  | Fin q => Z.sgn (Qnum q)
  | Inf => 1
  | NegInf => -1
  | NaN => 0
  end.

Definition of_sign (s : Z) : num :=
  if bool_decide (s = 0) then NaN else if bool_decide (0 < s)%Z then Inf else NegInf.

Definition is_zero (x : num) : bool :=
  match x with Fin q => bool_decide (Qnum q = 0) | _ => false end.

Definition to_int (x : num) : option Z :=
  match x with
  | Fin q => if bool_decide (Qden q = 1%positive) then Some (Qnum q) else None
  | _ => None
  end.

Definition neg (x : num) : num :=
  match x with
  | Fin q => Fin (Qred (- q))
  | Inf => NegInf
  | NegInf => Inf
  | NaN => NaN
  end.

Definition plus (x y : num) : num :=
  match x, y with
  | NaN, _ | _, NaN => NaN
  | Fin a, Fin b => Fin (Qred (a + b))
  | Fin _, i | i, Fin _ => i
  | Inf, Inf => Inf
  | NegInf, NegInf => NegInf
  | _, _ => NaN
  end.

Definition times (x y : num) : num :=
  match x, y with
  | NaN, _ | _, NaN => NaN
  | Fin a, Fin b => Fin (Qred (a * b))
  | _, _ => of_sign (sgn x * sgn y)
  end.

(** [x / y] for a non-zero [y]. *)
Definition quot (x y : num) : num :=
  match x, y with
  | NaN, _ | _, NaN => NaN
  | Fin a, Fin b => Fin (Qred (a / b))
  | Fin _, _ => Fin 0
  | _, Fin _ => of_sign (sgn x * sgn y)
  | _, _ => NaN
  end.

Definition power (x y : num) : result num :=
  match to_int y with
  | Some k =>
      match x with
      | Fin a => if bool_decide (0 ≤ k)%Z then Ok (Fin (Qred (Qpower a k))) else Raise BackendError
      | NaN => Ok NaN
      | _ => if bool_decide (0 < k)%Z then Ok (of_sign (sgn x ^ k)) else Raise BackendError
      end
  | None => Raise BackendError
  end.

(** Python's arithmetic on numbers: division by zero raises. *)
Definition num_op (o : binop) (x y : num) : result num :=
  match o with
  | Add => Ok (plus x y)
  | Sub => Ok (plus x (neg y))
  | Mul => Ok (times x y)
  | Div => if is_zero y then Raise ZeroDivisionError else Ok (quot x y)
  | Pow => power x y
  end.

(** The array backend's arithmetic on entries: division by zero gives an
    infinity or a not-a-number. *)
Definition entry_op (o : binop) (x y : num) : result num :=
  match o with
  | Div => if is_zero y then Ok (of_sign (sgn x)) else Ok (quot x y)
  | _ => num_op o x y
  end.

Fixpoint zip_op (o : binop) (x y : list num) : result (list num) :=
  match x, y with
  | [], [] => Ok []
  | a :: x', b :: y' =>
      let* c := entry_op o a b in
      let* r := zip_op o x' y' in
      Ok (c :: r)
  | _, _ => Raise BackendError               (* shapes do not match *)
  end.

Fixpoint map_op (f : num → result num) (x : list num) : result (list num) :=
  match x with
  | [] => Ok []
  | a :: x' => let* c := f a in let* r := map_op f x' in Ok (c :: r)
  end.

Definition abs (x : num) : num :=
  match x with
  | Fin q => Fin (Qred (Qabs q))
  | NaN => NaN
  | _ => Inf
  end.

#[global] Instance host : Host := {|
  scalar := num;
  arr := list num;
  inf := Inf;
  of_Z := fun z => Fin (inject_Z z);
  s_abs := abs;
  s_is_zero := is_zero;
  s_neg := neg;
  a_neg := fun x => Ok (map neg x);
  a_is_zero := fun x => match x with [a] => Ok (is_zero a) | _ => Raise BackendError end;
  s_int := to_int;
  s_op := num_op;
  a_op := zip_op;
  sa_op := fun o a y => map_op (entry_op o a) y;
  as_op := fun o x b => map_op (fun a => entry_op o a b) x;
  astype_like := fun x _ => x;
  arr_shape := fun x => [Z.of_nat (length x)];
  flatten := fun x => x;
  set_iter := elements;
  set_iter_perm := fun X => reflexivity (elements X);
|}.

(** Modelled from the spec: [pycsou.util.broadcast_sum_shapes], which is
    not in the source tree.  Operand shapes are compatible when they are
    equal or when one is a functional's [(1, n)] against an [(m, n)]. *)
Definition broadcast (s1 s2 : @value host) : result (bool * @value host) :=
  match s1, s2 with
  | VTuple [m1; n1], VTuple [m2; n2] =>
      if bool_decide (n1 = n2) then
        if bool_decide (m1 = m2) then Ok (true, s1)
        else if bool_decide (m1 = 1) then Ok (true, s2)
        else if bool_decide (m2 = 1) then Ok (true, s1)
        else Ok (false, VNone)
      else Ok (false, VNone)
  | _, _ => Ok (false, VNone)
  end.

(** Stand-ins for the two classes of [pycsou.linop.base], which is not in
    the source tree either: bare instances of [LinFunc] and [UnitOp]. *)
Definition explicit_lin_func (vec : @value host) : result (@op host) :=
  match vec with
  | VArr a =>
      let* o := construct LinFunc (VTuple [1; Z.of_nat (length a)]) in
      Ok (setattr o "asarray" (VMethod0 (Ok vec)))
  | _ => Raise TypeError
  end.

Definition identity_operator (shape : @value host) : result (@op host) :=
  let* o := construct UnitOp shape in
  Ok (setattr (setattr o "apply" (VMethod1 (fun x => Ok (VArr x))))
        "adjoint" (VMethod1 (fun x => Ok (VArr x)))).

#[global] Instance imports : Imports := {|
  broadcast_sum_shapes := broadcast;
  ExplicitLinFunc := explicit_lin_func;
  IdentityOperator := identity_operator;
  host_binop := fun _ _ _ => Raise TypeError;
  base_order := _base_operators;
  base_order_perm := reflexivity _base_operators;
|}.

(** Python's operators at a recursion depth that none of the examples
    reaches. *)
Definition py : binop → value → value → result value := binop_eval 8.

(** *** Leaf operators

    A leaf is an instance of a user-written subclass: the instance the
    library constructor builds, with the subclass's methods and bound. *)
Definition leaf (c : pyclass) (shape : list Z) (attrs : list (string * value)) : op :=
  match construct c (VTuple shape) with
  | Ok (Instance k _ d) =>
      Instance k true (foldr (fun kv d => <[kv.1 := kv.2]> d) d attrs)
  | Raise _ => Instance c true ∅
  end.

Definition q (n : Z) : num := Fin (inject_Z n).

Definition scale_by (c : Z) : value :=
  VMethod1 (fun x => let* r := map_op (entry_op Mul (q c)) x in Ok (VArr r)).

Definition sum_sq (x : list num) : result num :=
  foldr (fun a acc => let* s := acc in let* a2 := entry_op Mul a a in entry_op Add a2 s)
        (Ok (q 0)) x.

(** The scalings by 2 and by 3 on three entries, with their bounds. *)
Definition scale2 : op :=
  leaf LinOp [3; 3] [("apply", scale_by 2); ("adjoint", scale_by 2); ("_lipschitz", VNum (q 2))].
Definition scale3 : op :=
  leaf LinOp [3; 3] [("apply", scale_by 3); ("adjoint", scale_by 3); ("_lipschitz", VNum (q 3))].

(** A plain map on two entries. *)
Definition plain_map : op := leaf Map [2; 2] [("apply", scale_by 5); ("_lipschitz", VNum (q 5))].

(** The scaling by 2 as a differentiable map with a single output row. *)
Definition diff_row : op :=
  leaf DiffMap [1; 1] [("apply", scale_by 2); ("_lipschitz", VNum (q 2))].

(** [x ↦ |x|^2], a differentiable functional with gradient [2x]. *)
Definition sq_norm : op :=
  leaf DiffFunc [1; 2]
    [("apply", VMethod1 (fun x => let* s := sum_sq x in Ok (VArr [s])));
     ("gradient", scale_by 2)].

(** [x ↦ |x|^2 / 2], proximable: [prox(x, tau) = x / (1 + tau)]. *)
Definition half_sq : op :=
  leaf ProxFunc [1; 2]
    [("apply", VMethod1 (fun x =>
        let* s := sum_sq x in let* h := entry_op Div s (q 2) in Ok (VArr [h])));
     ("prox", VMethod2 ("arr", "tau") (fun x tau =>
        let* d := entry_op Add (q 1) tau in
        let* r := map_op (fun a => entry_op Div a d) x in
        Ok (VArr r)))].

(** The unitary operator swapping two entries. *)
Definition swap : value :=
  VMethod1 (fun x => match x with [a; b] => Ok (VArr [b; a]) | _ => Raise BackendError end).
Definition swap_op : op :=
  leaf UnitOp [2; 2] [("apply", swap); ("adjoint", swap)].

(** A linear operator with a single output row, [x ↦ x1 + x2]. *)
Definition row_sum : op :=
  leaf LinOp [1; 2]
    [("apply", VMethod1 (fun x =>
        match x with
        | [a; b] => let* s := entry_op Add a b in Ok (VArr [s])
        | _ => Raise BackendError
        end));
     ("adjoint", VMethod1 (fun y =>
        match y with [a] => Ok (VArr [a; a]) | _ => Raise BackendError end))].

(** The array, or the number, a computation returned. *)
Definition array_of (r : result value) : result (list num) :=
  match r with
  | Ok (VArr a) => Ok a
  | Ok _ => Raise TypeError
  | Raise e => Raise e
  end.

Definition number_of (r : result value) : result num :=
  match r with
  | Ok (VNum a) => Ok a
  | Ok _ => Raise TypeError
  | Raise e => Raise e
  end.

End Toy.

(** * Properties of the hierarchy *)

Example mro_LinFunc :
  mro LinFunc = [LinFunc; DiffFunc; Func; LinOp; DiffMap; Map; Apply; SingledValued;
                 Gradient; Differential; Adjoint; Property_].
Proof. compute_done. Qed.

Example mro_OrthProjOp :
  mro OrthProjOp = [OrthProjOp; ProjOp; SelfAdjointOp; NormalOp; SquareOp; LinOp;
                    DiffMap; Map; Apply; Differential; Adjoint; Property_].
Proof. compute_done. Qed.

(** The capability set of every class.  [_lipschitz] and [_diff_lipschitz]
    are attributes of instances, set by [__init__]: no class body binds
    them, so [dir(cls)] never lists them. *)
Lemma properties_table c :
  properties c =
  match c with
  | Property_ => ∅
  | SingledValued => {["single_valued"]}
  | Apply | Map => {["apply"]}
  | Differential => {["jacobian"]}
  | Gradient => {["jacobian"; "gradient"]}
  | Adjoint => {["adjoint"]}
  | Proximal => {["prox"]}
  | DiffMap => {["apply"; "jacobian"]}
  | Func => {["apply"; "single_valued"]}
  | ProxFunc => {["apply"; "single_valued"; "prox"]}
  | DiffFunc => {["apply"; "single_valued"; "jacobian"; "gradient"]}
  | LinFunc => {["apply"; "single_valued"; "jacobian"; "gradient"; "adjoint"]}
  | _ => {["apply"; "jacobian"; "adjoint"]}
  end.
Proof. destruct c; (compute_done). Qed.

Lemma properties_sub_list c : properties c ⊆ _property_list.
Proof. apply intersection_subseteq_r. Qed.

Lemma lipschitz_not_property c :
  ("_lipschitz" ∉ properties c) ∧ ("_diff_lipschitz" ∉ properties c).
Proof. rewrite properties_table. destruct c; split; (compute_done). Qed.

(** [cast_to.has("single_valued")] is false for every class: the argument
    is a string, and no capability has a one-letter name. *)
Lemma has_single_valued_str c : has c (HasStr "single_valued") = false.
Proof. unfold has. rewrite properties_table. destruct c; (compute_done). Qed.

Example has_single_valued_tuple : has Func (HasTuple ["single_valued"]) = true.
Proof. compute_done. Qed.

(** Case analysis on membership in an explicit list of classes. *)
Ltac list_cases H :=
  repeat (apply elem_of_cons in H as [H | H]; [subst | ]);
  try (apply elem_of_nil in H; destruct H).

(** Refute a decidable closed proposition by evaluation. *)
Ltac compute_refute :=
  lazymatch goal with
  | |- ?P → False => refine (bool_decide_eq_false_1 P _); vm_compute; reflexivity
  | |- ¬ ?P => refine (bool_decide_eq_false_1 P _); vm_compute; reflexivity
  end.

(** No two base kinds share a capability set. *)
Lemma base_properties_inj c d :
  c ∈ _base_operators → d ∈ _base_operators → properties c = properties d → c = d.
Proof.
  intros Hc Hd. unfold _base_operators in Hc, Hd.
  list_cases Hc; list_cases Hd; rewrite !properties_table; intros E;
    try reflexivity; exfalso; revert E; compute_refute.
Qed.

(** * General facts *)

Lemma bind_Ok {A B} (a : A) (k : A → result B) : bind (Ok a) k = k a.
Proof. reflexivity. Qed.

Lemma bind_Raise {A B} e (k : A → result B) : bind (Raise e) k = Raise e.
Proof. reflexivity. Qed.

Lemma bind_Ok_inv {A B} (r : result A) (k : A → result B) b :
  bind r k = Ok b → ∃ a, r = Ok a ∧ k a = Ok b.
Proof. destruct r; simpl; [eauto | discriminate]. Qed.

Lemma bind_Raise_inv {A B} (r : result A) (k : A → result B) e :
  bind r k = Raise e → r = Raise e ∨ ∃ a, r = Ok a ∧ k a = Raise e.
Proof. destruct r; simpl; [eauto | intros [= ->]; by left]. Qed.

Lemma raises_bind {A B} (r : result A) (k : A → result B) :
  (∀ a, raises (k a)) → raises (bind r k).
Proof. intros Hk. destruct r; simpl; [apply Hk | eexists; reflexivity]. Qed.

Lemma raises_not_ok {A} (r : result A) a : raises r → r ≠ Ok a.
Proof. intros [e ->]. discriminate. Qed.

Section Facts.
Context `{H : Host} `{Im : !Imports}.
Implicit Types (o self other obj : op) (d : gmap string value) (name prop : string).

(** ** Loops that attach attributes *)

Lemma class_of_setattr o name v : class_of (setattr o name v) = class_of o.
Proof. by destruct o. Qed.

Lemma subclassed_setattr o name v : subclassed (setattr o name v) = subclassed o.
Proof. by destruct o. Qed.

Lemma dict_of_setattr o name v : dict_of (setattr o name v) = <[name := v]> (dict_of o).
Proof. by destruct o. Qed.

Lemma properties_of_setattr o name v : properties_of (setattr o name v) = properties_of o.
Proof. by destruct o. Qed.

(** A loop whose body only ever sets the attribute it visits leaves the
    class and every other attribute alone. *)
Lemma for_each_frame (l : list string) (body : op → string → result op) o o' :
  (∀ o1 p o2, p ∈ l → body o1 p = Ok o2 → o2 = o1 ∨ ∃ v, o2 = setattr o1 p v) →
  for_each l body o = Ok o' →
  class_of o' = class_of o ∧ subclassed o' = subclassed o ∧
  ∀ name, name ∉ l → dict_of o' !! name = dict_of o !! name.
Proof.
  revert o. induction l as [|p l IH]; intros o Hbody Hrun; simpl in Hrun.
  - by inversion Hrun.
  - apply bind_Ok_inv in Hrun as (o1 & H1 & Hrest).
    apply IH in Hrest as (Hc & Hs & Hd).
    2:{ intros ???? Hb. eapply Hbody; [apply elem_of_cons; by right | done]. }
    destruct (Hbody o p o1) as [-> | [v ->]]; [apply elem_of_cons; by left | done | |].
    + repeat split; try done. intros name [_ Hn]%not_elem_of_cons. by apply Hd.
    + rewrite class_of_setattr in Hc. rewrite subclassed_setattr in Hs.
      repeat split; try done. intros name [Hne Hn]%not_elem_of_cons.
      rewrite Hd by done. rewrite dict_of_setattr. by apply lookup_insert_ne.
Qed.

Lemma for_each_ext {A B} (l : list A) (f g : B → A → result B) b :
  (∀ b a, f b a = g b a) → for_each l f b = for_each l g b.
Proof.
  intros E. revert b. induction l as [|a l IH]; intros b; simpl; [done|].
  rewrite E. destruct (g b a); simpl; [apply IH | done].
Qed.

(** A loop that copies [g p] under each visited name [p]. *)
Lemma for_each_copy (l : list string) (g : string → result value) o o' :
  for_each l (fun obj p => let* v := g p in Ok (setattr obj p v)) o = Ok o' →
  ∀ name, name ∈ l → ∃ v, g name = Ok v ∧ dict_of o' !! name = Some v.
Proof.
  revert o. induction l as [|p l IH]; intros o Hrun name Hin; [by inversion Hin|].
  simpl in Hrun. apply bind_Ok_inv in Hrun as (o1 & H1 & Hrest).
  apply bind_Ok_inv in H1 as (v & Hv & [= <-]).
  destruct (decide (name ∈ l)) as [Hl | Hl]; [by eapply IH|].
  apply elem_of_cons in Hin as [-> | Hin]; [|done].
  exists v. split; [done|].
  eapply for_each_frame in Hrest as (_ & _ & Hd).
  - rewrite Hd by done. rewrite dict_of_setattr. apply lookup_insert_eq.
  - intros o2 q o3 _ Hq. apply bind_Ok_inv in Hq as (w & _ & [= <-]). eauto.
Qed.

(** ** Constructors *)

Lemma run_init_S n full k d sh :
  run_init (S n) full k d sh =
  init_body
    (fun d sh => match next_init full k with
                 | Some k' => run_init n full k' d sh
                 | None => Raise TypeError
                 end)
    (run_init n full) k d sh.
Proof. reflexivity. Qed.

(** An initialiser only writes the three private attributes. *)
Lemma run_init_frame n full k d sh d' name :
  run_init n full k d sh = Ok d' →
  name ∉ ["_shape"; "_lipschitz"; "_diff_lipschitz"] →
  d' !! name = d !! name.
Proof.
  intros Hrun Hname.
  apply not_elem_of_cons in Hname as [N1 Hname].
  apply not_elem_of_cons in Hname as [N2 Hname].
  apply not_elem_of_cons in Hname as [N3 _].
  revert k d sh d' Hrun. induction n as [|n IH]; intros k d sh d' Hrun; [discriminate|].
  rewrite run_init_S in Hrun.
  assert (∀ d0 sh0 d1,
    match next_init full k with
    | Some k' => run_init n full k' d0 sh0
    | None => Raise TypeError
    end = Ok d1 → d1 !! name = d0 !! name) as Hsuper.
  { intros d0 sh0 d1. destruct (next_init full k); [apply IH | discriminate]. }
  destruct k; simpl in Hrun; try discriminate.
  - (* Map *)
    apply bind_Ok_inv in Hrun as (t & _ & Hrun).
    case_bool_decide; [discriminate|]. injection Hrun as <-.
    by rewrite !lookup_insert_ne.
  - (* DiffMap *)
    apply bind_Ok_inv in Hrun as (d1 & H1 & [= <-]).
    rewrite lookup_insert_ne by done. eauto.
  - (* Func *)
    apply bind_Ok_inv in Hrun as (t & _ & Hrun).
    apply bind_Ok_inv in Hrun as (t' & _ & Hrun). eauto.
  - eauto.
  - eauto.
  - (* LinOp *)
    apply bind_Ok_inv in Hrun as (d1 & H1 & [= <-]).
    rewrite lookup_insert_ne by done. eauto.
  - (* LinFunc *)
    apply bind_Ok_inv in Hrun as (d1 & H1 & H2).
    apply IH in H1, H2. congruence.
  - (* SquareOp *)
    apply bind_Ok_inv in Hrun as (t & _ & Hrun).
    destruct t as [|c [|c' t]]; [discriminate | eauto |].
    case_bool_decide; [discriminate | eauto].
  - (* UnitOp *)
    apply bind_Ok_inv in Hrun as (d1 & H1 & [= <-]).
    rewrite lookup_insert_ne by done. eauto.
  - (* OrthProjOp *)
    apply bind_Ok_inv in Hrun as (d1 & H1 & [= <-]).
    rewrite lookup_insert_ne by done. eauto.
Qed.

(** The bound an initialiser leaves is [+∞], unless it ran the body of
    [UnitOp] or [OrthProjOp]. *)
Lemma run_init_lipschitz n full k d sh d' :
  UnitOp ∉ full → OrthProjOp ∉ full → k ≠ UnitOp → k ≠ OrthProjOp →
  run_init n full k d sh = Ok d' →
  d' !! "_lipschitz" = Some (VNum inf).
Proof.
  intros HU HO. revert k d sh d'.
  induction n as [|n IH]; intros k d sh d' Hk1 Hk2 Hrun; [discriminate|].
  rewrite run_init_S in Hrun.
  assert (∀ d0 sh0 d1,
    match next_init full k with
    | Some k' => run_init n full k' d0 sh0
    | None => Raise TypeError
    end = Ok d1 → d1 !! "_lipschitz" = Some (VNum inf)) as Hsuper.
  { intros d0 sh0 d1. destruct (next_init full k) as [k'|] eqn:E; [|discriminate].
    unfold next_init in E. apply find_some in E as [E _].
    assert (k' ∈ full) as Hin.
    { apply list_elem_of_In in E. clear -E. induction full as [|c l IHl]; simpl in E.
      - by apply elem_of_nil in E.
      - apply elem_of_cons. right. case_decide; [done | by apply IHl]. }
    apply IH; intros ->; done. }
  destruct k; simpl in Hrun; try discriminate; try done.
  - apply bind_Ok_inv in Hrun as (t & _ & Hrun).
    case_bool_decide; [discriminate|]. injection Hrun as <-.
    apply lookup_insert_eq.
  - apply bind_Ok_inv in Hrun as (d1 & H1 & [= <-]).
    rewrite lookup_insert_ne by done. eauto.
  - apply bind_Ok_inv in Hrun as (t & _ & Hrun).
    apply bind_Ok_inv in Hrun as (t' & _ & Hrun). eauto.
  - eauto.
  - eauto.
  - apply bind_Ok_inv in Hrun as (d1 & H1 & [= <-]).
    rewrite lookup_insert_ne by done. eauto.
  - apply bind_Ok_inv in Hrun as (d1 & H1 & H2). by apply IH in H2.
  - apply bind_Ok_inv in Hrun as (t & _ & Hrun).
    destruct t as [|c [|c' t]]; [discriminate | eauto |].
    case_bool_decide; [discriminate | eauto].
Qed.

Lemma construct_inv c sh o :
  construct c sh = Ok o →
  class_of o = c ∧ subclassed o = false ∧
  ∃ k, first_init (mro c) = Some k ∧ run_init 32 (mro c) k ∅ sh = Ok (dict_of o).
Proof.
  unfold construct. destruct (first_init (mro c)) as [k|]; [|discriminate].
  intros Hc. apply bind_Ok_inv in Hc as (d & Hd & [= <-]). eauto.
Qed.

Lemma construct_frame c sh o name :
  construct c sh = Ok o →
  name ∉ ["_shape"; "_lipschitz"; "_diff_lipschitz"] →
  dict_of o !! name = None.
Proof.
  intros (_ & _ & k & _ & Hrun)%construct_inv Hname.
  erewrite run_init_frame by done. apply lookup_empty.
Qed.

Variable dyn : binop → value → value → result value.

(** ** Names *)

Lemma squeeze_out_table c :
  squeeze_out c =
  match c with
  | Property_ | SingledValued | Apply | Differential | Gradient | Adjoint | Proximal => None
  | Map | Func | ProxFunc | DiffFunc => Some Func
  | DiffMap => Some DiffFunc
  | _ => Some LinFunc
  end.
Proof. destruct c; (compute_done). Qed.

Lemma properties_capabilities c : properties c ⊆ capability_names.
Proof.
  rewrite properties_table.
  destruct c; refine (bool_decide_unpack _ _); vm_compute; exact I.
Qed.

Lemma capability_cases prop :
  prop ∈ capability_names →
  prop = "apply" ∨ prop = "jacobian" ∨ prop = "single_valued" ∨
  prop = "gradient" ∨ prop = "prox" ∨ prop = "adjoint".
Proof.
  unfold capability_names. rewrite elem_of_list_to_set, !elem_of_cons, elem_of_nil.
  tauto.
Qed.

(** The names the engine reads as data are not capabilities. *)
Lemma capability_not_private prop :
  prop ∈ capability_names →
  prop ∉ ["_shape"; "_lipschitz"; "_diff_lipschitz"; "lipschitz"; "diff_lipschitz"; "_cst"].
Proof.
  intros Hp%capability_cases.
  repeat destruct Hp as [-> | Hp]; try subst prop; compute_refute.
Qed.

Lemma set_iter_elem (X : gset string) name : name ∈ set_iter X ↔ name ∈ X.
Proof. rewrite (set_iter_perm X). apply elem_of_elements. Qed.

Lemma base_order_elem c : c ∈ base_order ↔ c ∈ _base_operators.
Proof. by rewrite base_order_perm. Qed.

(** ** Attribute lookup *)

Ltac eval_lookup :=
  repeat match goal with
  | |- context [mro_lookup ?c ?n] =>
      let r := eval vm_compute in (mro_lookup c n) in
      change (mro_lookup c n) with r
  end.

(** Every capability of the class can be fetched from an instance. *)
Lemma getattr_property self prop :
  prop ∈ properties_of self → ∃ v, getattr dyn self prop = Ok v.
Proof.
  unfold properties_of, getattr. intros Hp.
  destruct (dict_of self !! prop); [eauto|].
  rewrite properties_table in Hp.
  destruct (class_of self);
    rewrite ?elem_of_union, ?elem_of_singleton in Hp;
    try (by apply elem_of_empty in Hp);
    repeat destruct Hp as [Hp | Hp]; subst prop; eval_lookup; eexists; reflexivity.
Qed.

(** ** [specialize] and [squeeze] *)

(** What a successful [specialize] returns: the instance itself, or a new
    instance of the target class that carries the source's capabilities
    by reference and the constructor's values elsewhere. *)
Lemma specialize_inv self cast_to r :
  specialize dyn self cast_to = Ok r →
  (r = self ∧ cast_to = class_of self ∧ subclassed self = false) ∨
  (class_of r = cast_to ∧ subclassed r = false ∧
   ¬ (properties cast_to ⊂ properties_of self) ∧
   ∃ sh obj, shape self = Ok sh ∧ construct cast_to sh = Ok obj ∧
     (∀ name, name ∉ properties_of self → dict_of r !! name = dict_of obj !! name) ∧
     (∀ name, name ∈ properties_of self →
        ∃ v, getattr dyn self name = Ok v ∧ dict_of r !! name = Some v)).
Proof.
  unfold specialize. intros Hs.
  destruct (bool_decide (cast_to = class_of self) && negb (subclassed self)) eqn:E1.
  { left. injection Hs as <-. apply andb_true_iff in E1 as [E1 E2].
    apply bool_decide_eq_true_1 in E1. apply negb_true_iff in E2. done. }
  right. case_bool_decide as E2; [discriminate|].
  apply bind_Ok_inv in Hs as (sh & Hsh & Hs).
  apply bind_Ok_inv in Hs as (obj & Hobj & Hloop).
  assert (for_each (set_iter (properties_of self))
            (fun obj prop => let* v := getattr dyn self prop in Ok (setattr obj prop v))
            obj = Ok r) as Hloop'.
  { rewrite <- Hloop. apply for_each_ext. intros o1 p.
    by rewrite has_single_valued_str, andb_false_r. }
  clear Hloop. pose proof Hobj as (Hc & Hu & _)%construct_inv.
  pose proof Hloop' as (Hc' & Hu' & Hd)%for_each_frame.
  2:{ intros o1 p o2 _ Hb. apply bind_Ok_inv in Hb as (v & _ & [= <-]). eauto. }
  split; [congruence|]. split; [congruence|]. split; [done|].
  exists sh, obj. repeat split; try done.
  - intros name Hn. apply Hd. by rewrite set_iter_elem.
  - intros name Hn. eapply for_each_copy in Hloop'; [done|]. by rewrite set_iter_elem.
Qed.

Lemma squeeze_inv self r :
  squeeze dyn self = Ok r →
  ∃ c out, shape_at self 0 = Ok c ∧ squeeze_out (class_of self) = Some out ∧
    if bool_decide (c = 1) then specialize dyn self out = Ok r else r = self.
Proof.
  unfold squeeze, _squeeze. destruct (squeeze_out (class_of self)) as [out|]; [|discriminate].
  intros Hs. apply bind_Ok_inv in Hs as (c & Hc & Hs).
  exists c, out. repeat split; try done. case_bool_decide; [done | congruence].
Qed.

(** ** Instances built by the engine *)

Lemma engine_built_setattr o name v :
  name ∉ ["_lipschitz"; "lipschitz"] →
  engine_built o → engine_built (setattr o name v).
Proof.
  intros [N1 [N2 _]%not_elem_of_cons]%not_elem_of_cons (Hc & Hu & Hl & Hm).
  unfold engine_built.
  rewrite class_of_setattr, subclassed_setattr, dict_of_setattr, !lookup_insert_ne by done.
  done.
Qed.

Lemma mro_base_no_unit c :
  c ∈ _base_operators → (UnitOp ∉ mro c) ∧ (OrthProjOp ∉ mro c).
Proof.
  intros Hc. unfold _base_operators in Hc.
  list_cases Hc; split; compute_refute.
Qed.

Lemma first_init_elem full k : first_init full = Some k → k ∈ full.
Proof. intros [E _]%find_some. by apply list_elem_of_In. Qed.

Lemma engine_built_construct c sh o :
  c ∈ _base_operators → construct c sh = Ok o → engine_built o.
Proof.
  intros Hc Ho. pose proof Ho as (Hcl & Hu & k & Hk & Hrun)%construct_inv.
  destruct (mro_base_no_unit c Hc) as [HU HO].
  apply first_init_elem in Hk.
  split; [congruence|]. split; [done|]. split.
  - eapply run_init_lipschitz; [exact HU | exact HO | | | exact Hrun]; intros ->; done.
  - eapply construct_frame; [done|]. compute_refute.
Qed.

(** A loop over capability names keeps an instance engine-built. *)
Lemma engine_built_for_each (l : list string) (body : op → string → result op) o o' :
  (∀ o1 p o2, p ∈ l → body o1 p = Ok o2 → o2 = o1 ∨ ∃ v, o2 = setattr o1 p v) →
  (∀ p, p ∈ l → p ∈ capability_names) →
  engine_built o → for_each l body o = Ok o' → engine_built o'.
Proof.
  intros Hbody Hl (Hc & Hu & Hlip & Hm) (Hc' & Hu' & Hd)%for_each_frame; [|done].
  assert (∀ name, name ∈ ["_lipschitz"; "lipschitz"] → name ∉ l) as Hn.
  { intros name Hin Hl'. apply Hl, capability_not_private in Hl'. apply Hl'.
    revert Hin. rewrite !elem_of_cons, !elem_of_nil. tauto. }
  unfold engine_built. rewrite Hc', Hu', !Hd; [done | |].
  - apply Hn. rewrite !elem_of_cons. tauto.
  - apply Hn. rewrite !elem_of_cons. tauto.
Qed.

Lemma engine_built_specialize self cast_to r :
  cast_to ∈ _base_operators →
  engine_built self → specialize dyn self cast_to = Ok r → engine_built r.
Proof.
  intros Hc Hself [(-> & _) | (Hcl & Hu & _ & sh & obj & _ & Hobj & Hframe & _)]%specialize_inv;
    [done|].
  apply (engine_built_construct _ _ _ Hc) in Hobj as (_ & _ & Hl & Hm).
  assert (∀ name, name ∈ ["_lipschitz"; "lipschitz"] → name ∉ properties_of self) as Hn.
  { intros name Hin Hp. apply properties_capabilities, capability_not_private in Hp.
    apply Hp. revert Hin. rewrite !elem_of_cons, !elem_of_nil. tauto. }
  unfold engine_built. rewrite Hcl, Hu, !Hframe; [done | |].
  - apply Hn. rewrite !elem_of_cons. tauto.
  - apply Hn. rewrite !elem_of_cons. tauto.
Qed.

Lemma squeeze_out_base c out : squeeze_out c = Some out → out ∈ _base_operators.
Proof.
  rewrite squeeze_out_table. unfold _base_operators.
  destruct c; intros [= <-]; rewrite !elem_of_cons; tauto.
Qed.

Lemma engine_built_squeeze self r :
  engine_built self → squeeze dyn self = Ok r → engine_built r.
Proof.
  intros Hself (c & out & _ & Hout & Hr)%squeeze_inv.
  case_bool_decide; [|by subst].
  eapply engine_built_specialize; [|done|done]. by eapply squeeze_out_base.
Qed.

(** [lipschitz()] of an engine-built instance is [+∞]. *)
Lemma engine_built_lipschitz o :
  engine_built o → lipschitz dyn o = Ok (VNum inf).
Proof.
  intros (Hc & Hu & Hl & Hm). unfold lipschitz, getattr. rewrite Hm.
  unfold _base_operators in Hc. destruct o as [c u d]. simpl in *.
  list_cases Hc; eval_lookup; cbv beta iota;
    unfold class_attr, class_attr0, call0, dict_lookup; simpl; by rewrite Hl.
Qed.

(** ** Resolving the kind of a result *)

Lemma resolve_op_base P Op : resolve_op P = Some Op → Op ∈ _base_operators.
Proof.
  unfold resolve_op. rewrite <- base_order_elem.
  destruct (List.find _ base_order) as [K|] eqn:E.
  - intros [= <-]. apply find_some in E as [E _]. by apply list_elem_of_In.
  - intros (l & ->)%last_Some. apply elem_of_app. right. apply elem_of_cons. by left.
Qed.

(** When some base kind has exactly the capabilities [P], the loop stops
    at it, whatever the order of the visit. *)
Lemma resolve_op_match P K :
  K ∈ _base_operators → properties K = P → resolve_op P = Some K.
Proof.
  intros HK HP. unfold resolve_op.
  destruct (List.find _ base_order) as [K'|] eqn:E.
  - apply find_some in E as [E1 E2]. apply list_elem_of_In, base_order_elem in E1.
    apply bool_decide_eq_true_1 in E2. f_equal.
    apply base_properties_inj; congruence.
  - exfalso. apply base_order_elem, list_elem_of_In in HK.
    eapply find_none in E; [|exact HK]. simpl in E.
    by rewrite bool_decide_eq_true_2 in E.
Qed.

Lemma synthesized_props_sub Op P : synthesized_props Op P ⊆ P.
Proof.
  unfold synthesized_props. intros x. case_bool_decide; rewrite !elem_of_difference; tauto.
Qed.

(** ** The shape of [Property.__add__] and [Property.__mul__] *)

Lemma Property_add_inv (self other : value) r :
  Property_add dyn self other = Ok r →
  ∃ f g s1 s2 out_shape Op out0 out1,
    self = VOp f ∧ other = VOp g ∧ isinstance g Map = true ∧
    shape f = Ok s1 ∧ shape g = Ok s2 ∧
    broadcast_sum_shapes s1 s2 = Ok (true, out_shape) ∧
    resolve_op ((properties_of f ∩ properties_of g) ∖ {["prox"]}) = Some Op ∧
    construct Op out_shape = Ok out0 ∧
    add_loop dyn f g
      (set_iter (synthesized_props Op ((properties_of f ∩ properties_of g) ∖ {["prox"]})))
      out0 = Ok out1 ∧
    squeeze dyn out1 = Ok r.
Proof.
  unfold Property_add. destruct other as [| | | | | | | |g]; try discriminate.
  destruct (isinstance g Map) eqn:Hg; [|discriminate]. simpl.
  intros Hr. apply bind_Ok_inv in Hr as (s1 & Hs1 & Hr).
  apply bind_Ok_inv in Hr as (s2 & Hs2 & Hr).
  apply bind_Ok_inv in Hr as ([valid out_shape] & Hb & Hr).
  destruct valid; [|discriminate]. simpl in Hr.
  destruct self as [| | | | | | | |f]; try discriminate.
  destruct (resolve_op _) as [Op|] eqn:HOp; [|discriminate].
  apply bind_Ok_inv in Hr as (out0 & H0 & Hr).
  apply bind_Ok_inv in Hr as (out1 & H1 & Hr).
  exists f, g, s1, s2, out_shape, Op, out0, out1. repeat split; done.
Qed.

Lemma add_loop_body self other order o1 p o2 :
  (if bool_decide (p ∈ ["_lispchitz"; "_diff_lipschitz"]) then
     let* a := getattr dyn self p in
     let* b := getattr dyn other p in
     let* v := dyn Add a b in
     Ok (setattr o1 p v)
   else
     Ok (setattr o1 p (composite_method dyn self other (default p (last order))))) = Ok o2 →
  o2 = o1 ∨ ∃ v, o2 = setattr o1 p v.
Proof.
  case_bool_decide; intros Hb.
  - apply bind_Ok_inv in Hb as (a & _ & Hb). apply bind_Ok_inv in Hb as (b & _ & Hb).
    apply bind_Ok_inv in Hb as (v & _ & [= <-]). eauto.
  - injection Hb as <-. eauto.
Qed.

Lemma Property_add_built (self other : value) r :
  Property_add dyn self other = Ok r → engine_built r.
Proof.
  intros (f & g & s1 & s2 & sh & Op & out0 & out1 & -> & -> & _ & _ & _ & _ &
          HOp & H0 & H1 & Hr)%Property_add_inv.
  apply resolve_op_base in HOp.
  eapply engine_built_squeeze; [|exact Hr].
  eapply engine_built_for_each; [| |by eapply engine_built_construct|exact H1].
  - intros o1 p o2 _. apply add_loop_body.
  - intros p Hp%set_iter_elem%synthesized_props_sub.
    apply (properties_capabilities (class_of f)).
    apply elem_of_difference in Hp as [Hp _]. by apply elem_of_intersection in Hp as [Hp _].
Qed.

Lemma mul_step_body self other o1 p o2 :
  mul_step dyn self other o1 p = Ok o2 → o2 = o1 ∨ ∃ v, o2 = setattr o1 p v.
Proof.
  unfold mul_step. intros Hb.
  repeat (case_decide; [subst p |]);
    try (injection Hb as <-; eauto; fail).
  - apply bind_Ok_inv in Hb as (a & _ & Hb). apply bind_Ok_inv in Hb as (b & _ & Hb).
    apply bind_Ok_inv in Hb as (v & _ & [= <-]). eauto.
  - destruct (isinstance self LinOp); [|destruct (isinstance other LinOp)].
    + apply bind_Ok_inv in Hb as (a & _ & Hb). apply bind_Ok_inv in Hb as (b & _ & Hb).
      apply bind_Ok_inv in Hb as (v & _ & [= <-]). eauto.
    + apply bind_Ok_inv in Hb as (a & _ & Hb). apply bind_Ok_inv in Hb as (b & _ & Hb).
      apply bind_Ok_inv in Hb as (b2 & _ & Hb).
      apply bind_Ok_inv in Hb as (v & _ & [= <-]). eauto.
    + injection Hb as <-. eauto.
Qed.

Lemma Property_mul_map_inv self (other : value) r :
  Property_mul_map dyn self other = Ok r →
  ∃ g a m n Op out0 out1,
    other = VOp g ∧ isinstance g Map = true ∧
    shape_at self 1 = Ok a ∧ shape_at g 0 = Ok a ∧
    shape_at self 0 = Ok m ∧ shape_at g 1 = Ok n ∧
    resolve_op (mul_shared self g m) = Some Op ∧
    construct Op (VTuple [m; n]) = Ok out0 ∧
    for_each (set_iter (synthesized_props Op (mul_shared self g m)))
      (mul_step dyn self g) out0 = Ok out1 ∧
    squeeze dyn out1 = Ok r.
Proof.
  unfold Property_mul_map. destruct other as [| | | | | | | |g]; try discriminate.
  destruct (isinstance g Map) eqn:Hg; [|discriminate]. simpl.
  intros Hr. apply bind_Ok_inv in Hr as (a & Ha & Hr).
  apply bind_Ok_inv in Hr as (b & Hb & Hr).
  case_bool_decide as Hab; [discriminate|].
  assert (a = b) as <- by (destruct (decide (a = b)); [done | by destruct Hab]).
  apply bind_Ok_inv in Hr as (m & Hm & Hr).
  apply bind_Ok_inv in Hr as (n & Hn & Hr).
  apply bind_Ok_inv in Hr as (c & Hc & Hr).
  assert (c = m) as -> by congruence.
  fold (mul_shared self g m) in Hr.
  destruct (resolve_op _) as [Op|] eqn:HOp; [|discriminate].
  apply bind_Ok_inv in Hr as (out0 & H0 & Hr).
  apply bind_Ok_inv in Hr as (out1 & H1 & Hr).
  exists g, a, m, n, Op, out0, out1. repeat split; done.
Qed.

Lemma mul_shared_capabilities self other c : mul_shared self other c ⊆ capability_names.
Proof.
  unfold mul_shared. intros x.
  pose proof (properties_capabilities (class_of self) x) as Hx.
  destruct (_ && _); rewrite ?elem_of_union, !elem_of_difference, elem_of_intersection.
  - intros [[[? _] _] | Hg]; [by apply Hx|].
    destruct Hg as [->%elem_of_singleton | ->%elem_of_singleton];
      refine (bool_decide_unpack _ _); vm_compute; exact I.
  - intros [[? _] _]. by apply Hx.
Qed.

Lemma Property_mul_map_built self (other : value) r :
  Property_mul_map dyn self other = Ok r → engine_built r.
Proof.
  intros (g & a & m & n & Op & out0 & out1 & -> & _ & _ & _ & _ & _ &
          HOp & H0 & H1 & Hr)%Property_mul_map_inv.
  apply resolve_op_base in HOp.
  eapply engine_built_squeeze; [|exact Hr].
  eapply engine_built_for_each; [| |by eapply engine_built_construct|exact H1].
  - intros o1 p o2 _. apply mul_step_body.
  - intros p Hp%set_iter_elem%synthesized_props_sub. by eapply mul_shared_capabilities.
Qed.

(** ** Scalar operations *)

Lemma HomothetyOp_mul_with_raises pm self (other : value) :
  raises (HomothetyOp_mul_with dyn pm self other).
Proof.
  unfold HomothetyOp_mul_with. apply raises_bind. intros out_op.
  apply raises_bind. intros _. by eexists.
Qed.

Lemma Property_mul_real self (c : value) s :
  as_real c = Some s → raises (Property_mul dyn self c).
Proof.
  intros Hc. unfold Property_mul. rewrite Hc.
  apply raises_bind. intros dim. apply raises_bind. intros hmap.
  apply HomothetyOp_mul_with_raises.
Qed.

Lemma op_mul_real self (c : value) s :
  as_real c = Some s → raises (op_mul dyn self c).
Proof.
  intros Hc. unfold op_mul.
  destruct (mro_lookup (class_of self) "__mul__") as [k|]; [|by eexists].
  destruct k; try (by eexists).
  - by eapply Property_mul_real.
  - unfold ProxFunc_mul. destruct (Property_mul_real self c s Hc) as [e ->]. by eexists.
  - apply HomothetyOp_mul_with_raises.
Qed.

Lemma Property_mul_not_real self (other : value) r :
  Property_mul dyn self other = Ok r → Property_mul_map dyn self other = Ok r.
Proof.
  unfold Property_mul. destruct (as_real other) as [s|] eqn:E; [|done].
  intros Hr. destruct (Property_mul_real self other s E) as [e He].
  unfold Property_mul in He. rewrite E in He. congruence.
Qed.

(** ** The bound of a derived operator *)

Lemma ProxFunc_add_built (self other : value) r :
  ProxFunc_add dyn self other = Ok r → engine_built r.
Proof.
  unfold ProxFunc_add. intros Hr.
  apply bind_Ok_inv in Hr as (f & Hf%Property_add_built & Hr).
  apply bind_Ok_inv in Hr as (f' & Hf' & Hr).
  eapply engine_built_squeeze; [|exact Hr].
  destruct other as [| | | | | | | |g]; try (by injection Hf' as <-).
  destruct (isinstance g LinFunc); [|by injection Hf' as <-].
  apply bind_Ok_inv in Hf' as (f1 & H1 & [= <-]).
  apply engine_built_setattr; [compute_refute|].
  eapply engine_built_specialize; [|exact Hf|exact H1].
  unfold _base_operators. rewrite !elem_of_cons. tauto.
Qed.

Lemma op_add_built self (other : value) r :
  op_add dyn self other = Ok r → engine_built r.
Proof.
  unfold op_add, LinFunc_add.
  destruct (mro_lookup (class_of self) "__add__") as [k|]; [|discriminate].
  destruct k; try discriminate;
    [apply Property_add_built | apply ProxFunc_add_built | apply ProxFunc_add_built].
Qed.

Lemma ProxFunc_mul_built self (other : value) r :
  ProxFunc_mul dyn self other = Ok r → engine_built r.
Proof.
  unfold ProxFunc_mul. intros Hr.
  apply bind_Ok_inv in Hr as (f & Hf%Property_mul_not_real%Property_mul_map_built & Hr).
  apply bind_Ok_inv in Hr as (f' & Hf' & Hr).
  eapply engine_built_squeeze; [|exact Hr].
  destruct other as [| | | | | | | |g]; try (by injection Hf' as <-).
  destruct (isinstance g UnitOp); [|destruct (isinstance g _HomothetyOp)].
  - apply bind_Ok_inv in Hf' as (f1 & _ & [= <-]).
    apply engine_built_setattr; [compute_refute|done].
  - apply bind_Ok_inv in Hf' as (f1 & _ & [= <-]).
    apply engine_built_setattr; [compute_refute|done].
  - by injection Hf' as <-.
Qed.

Lemma op_mul_built self (other : value) r :
  op_mul dyn self other = Ok r → engine_built r.
Proof.
  unfold op_mul, HomothetyOp_mul.
  destruct (mro_lookup (class_of self) "__mul__") as [k|]; [|discriminate].
  destruct k; try discriminate.
  - intros Hr%Property_mul_not_real. by eapply Property_mul_map_built.
  - apply ProxFunc_mul_built.
  - intros Hr. destruct (HomothetyOp_mul_with_raises (Property_mul dyn) self other) as [e He].
    congruence.
Qed.

(** C6 (what the code does): whatever bounds the operands carry, the
    operator returned by [f + g] or by [f * g] reports the bound [+∞] that
    its constructor wrote: [_lipschitz] is an attribute of instances, never
    a member of [properties()], so the loops of [__add__] and [__mul__]
    never reach the branch that would propagate it. *)
Theorem derived_lipschitz_is_inf self (other : value) r :
  op_add dyn self other = Ok r ∨ op_mul dyn self other = Ok r →
  lipschitz dyn r = Ok (VNum inf).
Proof.
  intros [Hr | Hr]; apply engine_built_lipschitz;
    [by eapply op_add_built | by eapply op_mul_built].
Qed.

End Facts.

(** * Python's operators on operator instances *)

Section Operators.
Context `{H : Host} `{Im : !Imports}.

Lemma raises_lift_op (r : result op) : raises r → raises (lift_op r).
Proof. intros [e ->]. by eexists. Qed.

(** Arithmetic on two numbers gives a number or raises. *)
Lemma binop_eval_numbers fuel o (a b : scalar) :
  raises (binop_eval fuel o (VNum a) (VNum b)) ∨
  ∃ r : scalar, binop_eval fuel o (VNum a) (VNum b) = Ok (VNum r).
Proof.
  destruct fuel; [left; by eexists|]. simpl.
  destruct (s_op o a b) as [r|e]; [right; by exists r | left; by eexists].
Qed.

(** C2 (what the code does): [c * f], [f * c], [f / c] and [-f] raise for
    every operator [f] and every number [c]: each builds a homothety and
    calls [_HomothetyOp.__mul__], which ends on [return outop], a name that
    is not bound. *)
Theorem scalar_operations_raise (fuel : nat) (f : op) (c : scalar) :
  raises (binop_eval fuel Mul (VNum c) (VOp f)) ∧
  raises (binop_eval fuel Mul (VOp f) (VNum c)) ∧
  raises (binop_eval fuel Div (VOp f) (VNum c)) ∧
  raises (op_neg (binop_eval fuel) f).
Proof.
  assert (∀ (d : binop → value → value → result value) g (s : scalar),
            raises (op_mul d g (VNum s))) as Hmul.
  { intros d g s. by eapply (op_mul_real d g (VNum s) s). }
  split; [|split; [|split]]; try apply Hmul.
  - destruct fuel; [by eexists|]. simpl. apply raises_lift_op, Hmul.
  - destruct fuel; [by eexists|]. simpl. apply raises_lift_op, Hmul.
  - destruct fuel as [|n]; [by eexists|]. simpl. apply raises_lift_op.
    unfold op_truediv. simpl.
    destruct (binop_eval_numbers n Div (of_Z 1) c) as [[e ->] | [r ->]]; [by eexists|].
    simpl. apply Hmul.
Qed.

(** ** [fenchel_prox] *)

Lemma issubclass_Proximal c :
  issubclass c Proximal = match c with Proximal | ProxFunc => true | _ => false end.
Proof. destruct c; (compute_done). Qed.

Lemma fenchel_prox_lookup c :
  issubclass c Proximal = true → mro_lookup c "fenchel_prox" = Some Proximal.
Proof. rewrite issubclass_Proximal. destruct c; try discriminate; intros _; (compute_done). Qed.

Lemma binop_eval_arr_num fuel o (x : arr) (b : scalar) :
  binop_eval (S fuel) o (VArr x) (VNum b) = let* r := as_op o x b in Ok (VArr r).
Proof. reflexivity. Qed.

Lemma binop_eval_num_arr fuel o (a : scalar) (y : arr) :
  binop_eval (S fuel) o (VNum a) (VArr y) = let* r := sa_op o a y in Ok (VArr r).
Proof. reflexivity. Qed.

Lemma binop_eval_arr_arr fuel o (x y : arr) :
  binop_eval (S fuel) o (VArr x) (VArr y) = let* r := a_op o x y in Ok (VArr r).
Proof. reflexivity. Qed.

Lemma binop_eval_num_num fuel o (a b : scalar) :
  binop_eval (S fuel) o (VNum a) (VNum b) = let* r := s_op o a b in Ok (VNum r).
Proof. reflexivity. Qed.

(** C10 (what the code does): [fenchel_prox] calls [self.prox] by
    keyword, [prox(arr=arr / sigma, tau=1 / sigma)].  For a proximable
    functional whose [prox] names its parameters [arr] and [tau],
    [f.fenchel_prox(x, sigma)] is
    [x - sigma * f.prox(x / sigma, 1 / sigma)]: whenever the quotient
    [y = x / sigma], the inverse [t = 1 / sigma], the proximal point
    [p = f.prox(y, t)], the product [q = sigma * p] and the difference
    [r = x - q] are defined in the host's arithmetic, the result is [r].
    For a [prox] with other parameter names, as the
    [lambda _, x, tau] that [ProxFunc.__add__] attaches, the keyword call
    raises [TypeError]. *)
Theorem fenchel_prox_moreau (fuel : nat) (f : op) (x y : arr) (sigma t : scalar)
    (params : string * string) (m : arr → scalar → result value) :
  issubclass (class_of f) Proximal = true →
  getattr (binop_eval (S fuel)) f "prox" = Ok (VMethod2 params m) →
  as_op Div x sigma = Ok y →
  s_op Div (of_Z 1) sigma = Ok t →
  (params = ("arr", "tau") →
   ∀ p q r : arr,
     m y t = Ok (VArr p) → sa_op Mul sigma p = Ok q → a_op Sub x q = Ok r →
     fenchel_prox (binop_eval (S fuel)) f (VArr x) (VNum sigma) = Ok (VArr r)) ∧
  (params ≠ ("arr", "tau") →
   fenchel_prox (binop_eval (S fuel)) f (VArr x) (VNum sigma) = Raise TypeError).
Proof.
  intros Hf Hprox Hy Ht.
  assert (fenchel_prox (binop_eval (S fuel)) f (VArr x) (VNum sigma) =
          let* p := call2_kw (VMethod2 params m) (VArr y) (VNum t) in
          let* q := binop_eval (S fuel) Mul (VNum sigma) p in
          binop_eval (S fuel) Sub (VArr x) q) as ->.
  { unfold fenchel_prox. rewrite (fenchel_prox_lookup _ Hf).
    unfold Proximal_fenchel_prox. rewrite Hprox, bind_Ok.
    rewrite binop_eval_arr_num, Hy, !bind_Ok.
    by rewrite binop_eval_num_num, Ht, !bind_Ok. }
  split.
  - intros -> p q r Hp Hq Hr.
    unfold call2_kw. rewrite decide_True by done. unfold call2, as_real.
    rewrite Hp, bind_Ok.
    rewrite binop_eval_num_arr, Hq, !bind_Ok.
    by rewrite binop_eval_arr_arr, Hr.
  - intros Hne. unfold call2_kw. by rewrite decide_False.
Qed.

(** ** Construction *)

Ltac eval_closed :=
  repeat match goal with
  | |- context [first_init (mro ?c)] =>
      let r := eval vm_compute in (first_init (mro c)) in
      change (first_init (mro c)) with r
  | |- context [next_init (mro ?c) ?k] =>
      let r := eval vm_compute in (next_init (mro c) k) in
      change (next_init (mro c) k) with r
  end; cbv beta iota.

Ltac init_step := rewrite run_init_S; unfold init_body; eval_closed.

Lemma construct_Map (t : list Z) :
  construct Map (VTuple t) =
  if bool_decide (2 < length t)%nat then Raise NotImplementedError
  else Ok (Instance Map false (<["_lipschitz" := VNum inf]> (<["_shape" := VTuple t]> ∅))).
Proof.
  unfold construct. eval_closed. init_step. unfold as_tuple. rewrite bind_Ok.
  by case_bool_decide.
Qed.

Lemma construct_Func (c d : Z) :
  construct Func (VTuple [c; d]) =
  if bool_decide (1 < c) then Raise (ValueError FunctionalForm)
  else Ok (Instance Func false
             (<["_lipschitz" := VNum inf]> (<["_shape" := VTuple [c; d]]> ∅))).
Proof.
  unfold construct. eval_closed. init_step. unfold as_tuple. rewrite bind_Ok.
  rewrite bool_decide_eq_false_2 by (simpl; lia).
  case_bool_decide; [done|]. rewrite bind_Ok. init_step.
  unfold as_tuple. rewrite bind_Ok.
  by rewrite bool_decide_eq_false_2 by (simpl; lia).
Qed.

(** C8 (amended): construction checks the length of the shape and, for a
    functional, that the codomain size is not above 1; it never looks at
    the sign of a size.  [Map(shape)] succeeds exactly when [shape] has at
    most two entries, storing it as given; [Func((c, d))] fails with
    "Functionals must be of the form (1,n)" when [c > 1], and
    [Func((1, d))] succeeds. *)
Theorem construction_checks (t : list Z) (c d : Z) :
  1 < c →
  construct Map (VTuple t) =
    (if bool_decide (2 < length t)%nat then Raise NotImplementedError
     else Ok (Instance Map false
                (<["_lipschitz" := VNum inf]> (<["_shape" := VTuple t]> ∅)))) ∧
  construct Func (VTuple [c; d]) = Raise (ValueError FunctionalForm) ∧
  construct Func (VTuple [1; d]) =
    Ok (Instance Func false
          (<["_lipschitz" := VNum inf]> (<["_shape" := VTuple [1; d]]> ∅))).
Proof.
  intros Hc. split; [apply construct_Map|]. rewrite !construct_Func.
  rewrite bool_decide_eq_true_2 by done. by rewrite bool_decide_eq_false_2 by lia.
Qed.

(** ** Linear operators *)

Ltac eval_lookup :=
  repeat match goal with
  | |- context [mro_lookup ?c ?n] =>
      let r := eval vm_compute in (mro_lookup c n) in
      change (mro_lookup c n) with r
  end; cbv beta iota.

Lemma issubclass_LinOp c :
  issubclass c LinOp =
  match c with
  | LinOp | LinFunc | SquareOp | NormalOp | SelfAdjointOp | UnitOp | ProjOp
  | OrthProjOp | PosDefOp | _HomothetyOp => true
  | _ => false
  end.
Proof. destruct c; (compute_done). Qed.

(** [LinOp.jacobian] is the [jacobian] of every linear class, and
    [DiffMap.diff_lipschitz] its [diff_lipschitz]. *)
Lemma linear_lookup c :
  issubclass c LinOp = true →
  mro_lookup c "jacobian" = Some LinOp ∧ mro_lookup c "diff_lipschitz" = Some DiffMap.
Proof.
  rewrite issubclass_LinOp. destruct c; try discriminate; intros _; split; (compute_done).
Qed.

Lemma run_init_LinOp_dlip n full d sh d' :
  run_init n full LinOp d sh = Ok d' →
  d' !! "_diff_lipschitz" = Some (VNum (of_Z 0)).
Proof.
  destruct n; [discriminate|]. rewrite run_init_S. unfold init_body.
  intros (d1 & _ & [= <-])%bind_Ok_inv. apply lookup_insert_eq.
Qed.

Lemma run_init_SquareOp_dlip n full d sh d' :
  next_init full SquareOp = Some LinOp →
  run_init n full SquareOp d sh = Ok d' →
  d' !! "_diff_lipschitz" = Some (VNum (of_Z 0)).
Proof.
  intros Hnext. destruct n; [discriminate|]. rewrite run_init_S. unfold init_body.
  rewrite Hnext. intros (t & _ & Hrun)%bind_Ok_inv.
  destruct t as [|c [|c' t]]; [discriminate | by eapply run_init_LinOp_dlip |].
  case_bool_decide; [discriminate | by eapply run_init_LinOp_dlip].
Qed.

Lemma run_init_unit_dlip n full k d sh d' :
  k = UnitOp ∨ k = OrthProjOp →
  next_init full k = Some SquareOp → next_init full SquareOp = Some LinOp →
  run_init n full k d sh = Ok d' →
  d' !! "_diff_lipschitz" = Some (VNum (of_Z 0)).
Proof.
  intros Hk Hn1 Hn2. destruct n; [discriminate|]. rewrite run_init_S.
  destruct Hk as [-> | ->]; unfold init_body; rewrite Hn1;
    intros (d1 & H1 & [= <-])%bind_Ok_inv; rewrite lookup_insert_ne by done;
    by eapply run_init_SquareOp_dlip.
Qed.

Lemma run_init_LinFunc_dlip n full d sh d' :
  run_init n full LinFunc d sh = Ok d' →
  d' !! "_diff_lipschitz" = Some (VNum (of_Z 0)).
Proof.
  destruct n; [discriminate|]. rewrite run_init_S. unfold init_body.
  intros (d1 & _ & H2)%bind_Ok_inv. by eapply run_init_LinOp_dlip.
Qed.

(** Every constructor of a linear class ends with the diff-Lipschitz
    bound at 0. *)
Lemma construct_linear_dlip c sh o :
  issubclass c LinOp = true → construct c sh = Ok o →
  dict_of o !! "_diff_lipschitz" = Some (VNum (of_Z 0)).
Proof.
  rewrite issubclass_LinOp. intros Hc (_ & _ & k & Hk & Hrun)%construct_inv.
  revert Hk Hrun.
  destruct c; try discriminate; eval_closed; intros [= <-] Hrun.
  - by eapply run_init_LinOp_dlip.
  - by eapply run_init_LinFunc_dlip.
  - eapply run_init_SquareOp_dlip; [|done]. compute_done.
  - eapply run_init_SquareOp_dlip; [|done]. compute_done.
  - eapply run_init_SquareOp_dlip; [|done]. compute_done.
  - eapply run_init_unit_dlip; [by left | | | done]; (compute_done).
  - eapply run_init_SquareOp_dlip; [|done]. compute_done.
  - eapply run_init_unit_dlip; [by right | | | done]; (compute_done).
  - eapply run_init_SquareOp_dlip; [|done]. compute_done.
  - destruct (32%nat) eqn:E; [discriminate|]. by rewrite run_init_S in Hrun.
Qed.



(** The homothety behind scalar multiplication is built with
    diff-Lipschitz bound 0 as well. *)
Lemma construct_HomothetyOp_dlip (cst : value) (dim : Z) (h : op) :
  construct_HomothetyOp cst dim = Ok h →
  dict_of h !! "_diff_lipschitz" = Some (VNum (of_Z 0)).
Proof.
  unfold construct_HomothetyOp. destruct (as_real cst); [|discriminate].
  destruct (next_init _ _); [|discriminate].
  intros (d & _ & [= <-])%bind_Ok_inv. apply lookup_insert_eq.
Qed.

(** ** A proximable functional composed with a unitary operator *)

Lemma isinstance_ProxFunc (f : op) : isinstance f ProxFunc = true → class_of f = ProxFunc.
Proof.
  unfold isinstance. destruct (class_of f); try done;
    intros E; exfalso; revert E; apply not_true_iff_false; (compute_done).
Qed.

Lemma isinstance_UnitOp (f : op) : isinstance f UnitOp = true → class_of f = UnitOp.
Proof.
  unfold isinstance. destruct (class_of f); try done;
    intros E; exfalso; revert E; apply not_true_iff_false; (compute_done).
Qed.

Lemma specialize_own dyn (self : op) c :
  class_of self = c → subclassed self = false → specialize dyn self c = Ok self.
Proof.
  intros <- Hu. unfold specialize.
  by rewrite bool_decide_eq_true_2, Hu by done.
Qed.

Lemma shape_at_setattr (o : op) name v i :
  name ≠ "_shape" → shape_at (setattr o name v) i = shape_at o i.
Proof.
  intros Hn. unfold shape_at, shape. rewrite dict_of_setattr.
  by rewrite lookup_insert_ne.
Qed.

(** The closure that [ProxFunc.__mul__] attaches for a unitary [U]. *)
Lemma unitary_prox_shared (f U : op) (m : Z) :
  class_of f = ProxFunc → class_of U = UnitOp → mul_shared f U m = {["apply"]}.
Proof.
  intros Hf HU. unfold mul_shared, properties_of. rewrite Hf, HU, !properties_table.
  replace (bool_decide ("jacobian" ∈
     ({["apply"; "single_valued"; "prox"]} ∩ {["apply"; "jacobian"; "adjoint"]})
       ∖ ({["prox"]} : gset string))) with false by (symmetry; vm_compute; reflexivity).
  rewrite andb_false_r. compute_done.
Qed.

(** C7 (what the code does): when [f * U] returns for a proximable
    functional [f] and a unitary [U], the result is the instance that
    [Property.__mul__] built, of class [Map] or [Func]: the
    [specialize(cast_to=ProxFunc)] of [ProxFunc.__mul__] is computed and
    dropped.  The kind of [f * U] therefore has no [prox] capability; the
    instance nevertheless carries a [prox] attribute, and that attribute
    computes [U.adjoint(f.prox(U.apply(x), tau))]. *)
Theorem unitary_composition_prox (dyn : binop → value → value → result value)
    (f U r : op) :
  isinstance f ProxFunc = true → isinstance U UnitOp = true →
  op_mul dyn f (VOp U) = Ok r →
  (class_of r = Map ∨ class_of r = Func) ∧
  ("prox" ∉ properties_of r) ∧
  ∀ (x : arr) (tau : scalar),
    call_prox dyn r (VArr x) (VNum tau) =
    let* adj := getattr dyn U "adjoint" in
    let* p := getattr dyn f "prox" in
    let* a := getattr dyn U "apply" in
    let* y := call1 a (VArr x) in
    let* z := call2 p y (VNum tau) in
    call1 adj z.
Proof.
  intros Hf%isinstance_ProxFunc HU Hr.
  pose proof (isinstance_UnitOp _ HU) as HcU.
  unfold op_mul in Hr. rewrite Hf in Hr.
  replace (mro_lookup ProxFunc "__mul__") with (Some ProxFunc) in Hr by (symmetry; compute_done).
  unfold ProxFunc_mul in Hr. apply bind_Ok_inv in Hr as (f' & Hf' & Hr).
  rewrite HU in Hr. apply bind_Ok_inv in Hr as (f'' & Hf'' & Hr).
  apply bind_Ok_inv in Hf'' as (f1 & _ & [= <-]).
  apply Property_mul_not_real in Hf'.
  pose proof (Property_mul_map_built _ _ _ _ Hf') as (_ & Hu' & _).
  apply Property_mul_map_inv in Hf'
    as (g & a & m & n & Op & out0 & out1 & [= <-] & _ & _ & _ & Hm & _ &
        HOp & H0 & H1 & Hsq).
  rewrite (unitary_prox_shared f U m Hf HcU) in HOp, H1.
  rewrite (resolve_op_match {["apply"]} Map) in HOp.
  2:{ unfold _base_operators. apply elem_of_cons. by left. }
  2:{ rewrite properties_table. reflexivity. }
  injection HOp as <-.
  pose proof H0 as (Hc0 & Hu0 & _)%construct_inv.
  pose proof H1 as (Hc1 & Hu1 & _)%for_each_frame.
  2:{ intros o1 p o2 _. apply mul_step_body. }
  rewrite Hc0 in Hc1. rewrite Hu0 in Hu1.
  assert (r = setattr f' "prox" (VMethod2 ("arr", "tau") (fun arr tau =>
            let* adj := getattr dyn U "adjoint" in
            let* p := getattr dyn f "prox" in
            let* a := getattr dyn U "apply" in
            let* y := call1 a (VArr arr) in
            let* z := call2 p y (VNum tau) in
            call1 adj z)) ∧ (class_of f' = Map ∨ class_of f' = Func)) as [-> Hcl].
  { apply squeeze_inv in Hsq as (c & out & Hc & Hout & Hsq).
    rewrite Hc1, squeeze_out_table in Hout. injection Hout as <-.
    apply squeeze_inv in Hr as (c' & out' & Hc' & Hout' & Hr).
    rewrite class_of_setattr in Hout'.
    rewrite shape_at_setattr in Hc' by done.
    destruct (decide (c = 1)) as [Ec | Ec].
    - rewrite bool_decide_eq_true_2 in Hsq by done.
      apply specialize_inv in Hsq as [(_ & Hbad & _) | (Hcl & Hus & _)].
      { rewrite Hc1 in Hbad. discriminate. }
      rewrite Hcl, squeeze_out_table in Hout'. injection Hout' as <-.
      split; [|by right].
      destruct (decide (c' = 1)) as [Ec' | Ec'].
      + rewrite bool_decide_eq_true_2 in Hr by done.
        rewrite specialize_own in Hr; [congruence | by rewrite class_of_setattr |
                                        by rewrite subclassed_setattr].
      + by rewrite bool_decide_eq_false_2 in Hr by done.
    - rewrite bool_decide_eq_false_2 in Hsq by done. subst f'. split; [|by left].
      assert (c' = c) as -> by congruence.
      by rewrite bool_decide_eq_false_2 in Hr by done. }
  rewrite properties_of_setattr. unfold properties_of.
  split; [by rewrite class_of_setattr|]. split.
  - destruct Hcl as [-> | ->]; rewrite properties_table; compute_refute.
  - intros x tau. unfold call_prox, getattr at 1. rewrite dict_of_setattr, lookup_insert_eq.
    reflexivity.
Qed.

End Operators.

(** * [specialize] *)

Section Specialize.
Context `{H : Host} `{Im : !Imports}.
Variable dyn : binop → value → value → result value.

(** A loop fails only the way its body does. *)
Lemma for_each_error {A B} (P : exn → Prop) (l : list A) (body : B → A → result B) b e :
  (∀ b a e, body b a = Raise e → P e) → for_each l body b = Raise e → P e.
Proof.
  intros Hbody. revert b. induction l as [|a l IH]; intros b; simpl; [discriminate|].
  intros [Hb | (b' & _ & Hrest)]%bind_Raise_inv; eauto.
Qed.

Lemma for_each_ok {A B} (l : list A) (body : B → A → result B) b :
  (∀ b a, a ∈ l → ∃ b', body b a = Ok b') → ∃ b', for_each l body b = Ok b'.
Proof.
  revert b. induction l as [|a l IH]; intros b Hbody; simpl; [eauto|].
  destruct (Hbody b a) as [b' ->]; [apply elem_of_cons; by left|]. simpl.
  apply IH. intros b0 a0 Ha. apply Hbody. apply elem_of_cons. by right.
Qed.

(** Attribute lookup fails with [AttributeError] only. *)
Lemma getattr_error (self : op) name e : getattr dyn self name = Raise e → e = AttributeError.
Proof.
  unfold getattr. destruct (dict_of self !! name); [discriminate|].
  destruct (mro_lookup (class_of self) name) as [k|]; [|by intros [= <-]].
  unfold class_attr, class_attr0.
  repeat case_decide; destruct k; intros [= <-] || discriminate; reflexivity.
Qed.

(** No initialiser raises the error of [specialize]. *)
Lemma run_init_error n full k d sh e :
  run_init n full k d sh = Raise e → e ≠ ValueError CannotSpecialize.
Proof.
  revert k d sh e. induction n as [|n IH]; intros k d sh e; [by intros [= <-]|].
  rewrite run_init_S.
  assert (∀ d0 sh0 e0,
    match next_init full k with
    | Some k' => run_init n full k' d0 sh0
    | None => Raise TypeError
    end = Raise e0 → e0 ≠ ValueError CannotSpecialize) as Hsuper.
  { intros d0 sh0 e0. destruct (next_init full k); [apply IH | by intros [= <-]]. }
  assert (∀ v e0, as_tuple v = Raise e0 → e0 ≠ ValueError CannotSpecialize) as Htuple.
  { intros v e0. destruct v; simpl; intros [= <-]; done. }
  destruct k; simpl; try (by intros [= <-]); try (by apply Hsuper).
  - intros [Ht | (t & _ & Hr)]%bind_Raise_inv; [by eapply Htuple|].
    case_bool_decide; [by injection Hr as <- | discriminate].
  - intros [Hs | (d1 & _ & Hr)]%bind_Raise_inv; [by eapply Hsuper | discriminate].
  - intros [Ht | (t & _ & Hr)]%bind_Raise_inv; [by eapply Htuple|].
    apply bind_Raise_inv in Hr as [Hr | (t' & _ & Hr)]; [|by eapply Hsuper].
    case_bool_decide; [discriminate|].
    destruct t; [by injection Hr as <-|].
    case_bool_decide; [by injection Hr as <- | discriminate].
  - intros [Hs | (d1 & _ & Hr)]%bind_Raise_inv; [by eapply Hsuper | discriminate].
  - intros [Hs | (d1 & _ & Hr)]%bind_Raise_inv; by eapply IH.
  - intros [Ht | (t & _ & Hr)]%bind_Raise_inv; [by eapply Htuple|].
    destruct t as [|c [|c' t]]; [by injection Hr as <- | by eapply Hsuper |].
    case_bool_decide; [by injection Hr as <- | by eapply Hsuper].
  - intros [Hs | (d1 & _ & Hr)]%bind_Raise_inv; [by eapply Hsuper | discriminate].
  - intros [Hs | (d1 & _ & Hr)]%bind_Raise_inv; [by eapply Hsuper | discriminate].
Qed.

Lemma construct_error c sh e : construct c sh = Raise e → e ≠ ValueError CannotSpecialize.
Proof.
  unfold construct. destruct (first_init (mro c)); [|by intros [= <-]].
  intros [Hr | (d & _ & Hr)]%bind_Raise_inv; [by eapply run_init_error | discriminate].
Qed.

(** A loop whose body keeps the class of the instance keeps it. *)
Lemma for_each_class {A} (l : list A) (body : op → A → result op) (o o' : op) :
  (∀ o1 a o2, body o1 a = Ok o2 → class_of o2 = class_of o1) →
  for_each l body o = Ok o' → class_of o' = class_of o.
Proof.
  intros Hbody. revert o. induction l as [|a l IH]; intros o; simpl; [by intros [= <-]|].
  intros (o1 & H1 & Hrest)%bind_Ok_inv. rewrite (IH _ Hrest). by eapply Hbody.
Qed.

(** C4 (amended): [specialize] refuses, with its own error, exactly when
    the target is not the class of the instance and the capability set
    of the target is a strict subset of the capability set of the
    instance.  In every other case where the constructor of the target
    accepts the shape of the instance, it returns an instance of the
    target. *)
Theorem specialize_behaviour (self : op) (cast_to : pyclass) :
  (specialize dyn self cast_to = Raise (ValueError CannotSpecialize) ↔
     ¬ (cast_to = class_of self ∧ subclassed self = false) ∧
     properties cast_to ⊂ properties_of self) ∧
  (∀ sh obj,
     ¬ (properties cast_to ⊂ properties_of self) →
     shape self = Ok sh → construct cast_to sh = Ok obj →
     ∃ r, specialize dyn self cast_to = Ok r ∧ class_of r = cast_to).
Proof.
  assert (bool_decide (cast_to = class_of self) && negb (subclassed self) = true ↔
          cast_to = class_of self ∧ subclassed self = false) as Hown.
  { rewrite andb_true_iff, bool_decide_eq_true, negb_true_iff. done. }
  split; [split|].
  - unfold specialize. intros Hs.
    destruct (bool_decide (cast_to = class_of self) && negb (subclassed self)) eqn:E1;
      [discriminate|].
    split; [intros Ho%Hown; congruence|].
    case_bool_decide as E2; [done|]. exfalso.
    apply bind_Raise_inv in Hs as [Hs | (sh & _ & Hs)].
    { unfold shape in Hs. destruct (dict_of self !! "_shape"); discriminate. }
    apply bind_Raise_inv in Hs as [Hs | (obj & _ & Hs)]; [by eapply construct_error|].
    eapply (for_each_error (fun e => e = AttributeError)) in Hs; [discriminate|].
    intros o p e.
    destruct (bool_decide (p = "jacobian") && has cast_to (HasStr "single_valued"));
      [discriminate|].
    intros [Hg | (v & _ & [=])]%bind_Raise_inv. by eapply getattr_error.
  - intros [Hno Hsub]. unfold specialize.
    destruct (bool_decide (cast_to = class_of self) && negb (subclassed self)) eqn:E1.
    { destruct Hno. by apply Hown. }
    by rewrite bool_decide_eq_true_2.
  - intros sh obj Hsub Hsh Hobj. unfold specialize.
    destruct (bool_decide (cast_to = class_of self) && negb (subclassed self)) eqn:E1.
    { exists self. split; [done|]. by destruct (proj1 Hown eq_refl) as [-> _]. }
    rewrite bool_decide_eq_false_2 by done. rewrite Hsh, bind_Ok, Hobj, bind_Ok.
    match goal with
    | |- ∃ r, for_each ?l ?body ?o = Ok r ∧ _ =>
        destruct (for_each_ok l body o) as [r Hr]
    end.
    { intros o p Hp%set_iter_elem.
      destruct (bool_decide (p = "jacobian") && has cast_to (HasStr "single_valued"));
        [eauto|].
      destruct (getattr_property dyn self p Hp) as [v ->]. simpl. eauto. }
    exists r. split; [done|].
    apply for_each_class in Hr.
    + rewrite Hr. apply construct_inv in Hobj as (Hc & _). exact Hc.
    + intros o1 p o2.
      destruct (bool_decide (p = "jacobian") && has cast_to (HasStr "single_valued"));
        [intros [= <-]; apply class_of_setattr|].
      intros (v & _ & [= <-])%bind_Ok_inv. apply class_of_setattr.
Qed.

End Specialize.

(** * The kind of a sum *)

Lemma issubclass_Map c :
  issubclass c Map =
  match c with
  | Property_ | SingledValued | Apply | Differential | Gradient | Adjoint | Proximal => false
  | _ => true
  end.
Proof. destruct c; (compute_done). Qed.

Ltac base_member := unfold _base_operators; rewrite !elem_of_cons; tauto.

(** A class below [Map] has the capabilities of one of the base kinds. *)
Lemma map_class_properties c :
  issubclass c Map = true → ∃ K, K ∈ _base_operators ∧ properties c = properties K.
Proof.
  rewrite issubclass_Map.
  destruct c; try discriminate; intros _;
    first [ by (eexists; split; [|reflexivity]; base_member)
          | exists LinOp; split; [base_member | rewrite !properties_table; reflexivity] ].
Qed.

(** The capabilities two base kinds share, [prox] apart, are those of a
    base kind. *)
Lemma shared_base_kind K1 K2 :
  K1 ∈ _base_operators → K2 ∈ _base_operators →
  ∃ Op, Op ∈ _base_operators ∧
        properties Op = (properties K1 ∩ properties K2) ∖ {["prox"]}.
Proof.
  intros H1 H2. unfold _base_operators in H1, H2.
  list_cases H1; list_cases H2; rewrite !properties_table;
    first [ exists Map; split; [base_member | compute_done]
          | exists Func; split; [base_member | compute_done]
          | exists DiffMap; split; [base_member | compute_done]
          | exists DiffFunc; split; [base_member | compute_done]
          | exists LinOp; split; [base_member | compute_done]
          | exists LinFunc; split; [base_member | compute_done] ].
Qed.

Section Sum.
Context `{H : Host} `{Im : !Imports}.
Variable dyn : binop → value → value → result value.

(** Initialising with a shape whose first entry is 1 stores such a
    shape. *)
Lemma run_init_codim n full k d t d' :
  run_init n full k d (VTuple (1 :: t)) = Ok d' →
  ∃ t', d' !! "_shape" = Some (VTuple (1 :: t')).
Proof.
  revert k d t d'. induction n as [|n IH]; intros k d t d' Hrun; [discriminate|].
  rewrite run_init_S in Hrun.
  assert (∀ d0 t0 d1,
    match next_init full k with
    | Some k' => run_init n full k' d0 (VTuple (1 :: t0))
    | None => Raise TypeError
    end = Ok d1 → ∃ t', d1 !! "_shape" = Some (VTuple (1 :: t'))) as Hsuper.
  { intros d0 t0 d1. destruct (next_init full k); [apply IH | discriminate]. }
  destruct k; simpl in Hrun; try discriminate; try (by eapply Hsuper).
  - (* Map *)
    case_bool_decide; [discriminate|]. injection Hrun as <-.
    exists t. rewrite lookup_insert_ne by done. apply lookup_insert_eq.
  - (* DiffMap *)
    apply bind_Ok_inv in Hrun as (d1 & H1 & [= <-]).
    rewrite lookup_insert_ne by done. eauto.
  - (* Func *)
    apply bind_Ok_inv in Hrun as (t' & Ht & Hrun).
    case_bool_decide; [injection Ht as <-; eauto|].
    injection Ht as <-. eauto.
  - (* LinOp *)
    apply bind_Ok_inv in Hrun as (d1 & H1 & [= <-]).
    rewrite lookup_insert_ne by done. eauto.
  - (* LinFunc *)
    apply bind_Ok_inv in Hrun as (d1 & _ & H2). eauto.
  - (* SquareOp *)
    destruct t as [|c' t]; [eauto|].
    case_bool_decide; [discriminate | eauto].
  - (* UnitOp *)
    apply bind_Ok_inv in Hrun as (d1 & H1 & [= <-]).
    rewrite lookup_insert_ne by done. eauto.
  - (* OrthProjOp *)
    apply bind_Ok_inv in Hrun as (d1 & H1 & [= <-]).
    rewrite lookup_insert_ne by done. eauto.
Qed.

Lemma shape_at_0_inv (o : op) :
  shape_at o 0 = Ok 1 → ∃ t, shape o = Ok (VTuple (1 :: t)).
Proof.
  unfold shape_at. intros (s & -> & Hs)%bind_Ok_inv.
  destruct s as [| | | |l| | | |]; try discriminate.
  destruct l as [|c t]; [discriminate|]. injection Hs as ->. eauto.
Qed.

(** [specialize] keeps a codomain of size 1. *)
Lemma specialize_codim (self : op) cast_to r :
  shape_at self 0 = Ok 1 → specialize dyn self cast_to = Ok r → shape_at r 0 = Ok 1.
Proof.
  intros Hc [(-> & _) | (_ & _ & _ & sh & obj & Hsh & Hobj & Hframe & _)]%specialize_inv;
    [done|].
  apply shape_at_0_inv in Hc as [t Ht]. rewrite Ht in Hsh. injection Hsh as <-.
  apply construct_inv in Hobj as (_ & _ & k & _ & Hrun).
  apply run_init_codim in Hrun as [t' Ht'].
  unfold shape_at, shape. rewrite Hframe, Ht'; [done|].
  intros Hp%properties_capabilities%capability_not_private. apply Hp.
  apply elem_of_cons. by left.
Qed.

(** C5 (amended): when [Property.__add__] returns for operands [f] and
    [g], the capabilities the operands share, [prox] apart, are those of
    exactly one base kind [Op].  The sum is of kind [Op] and has exactly
    the shared capabilities when its codomain size is not 1.  When its
    codomain size is 1 the sum is of the functional counterpart of [Op],
    whose capabilities are the shared ones together with [single_valued]
    and, when [jacobian] is shared, [gradient]. *)
Theorem sum_kind (f g r : op) :
  isinstance f Map = true →
  Property_add dyn (VOp f) (VOp g) = Ok r →
  ∃ Op c,
    Op ∈ _base_operators ∧
    properties Op = (properties_of f ∩ properties_of g) ∖ {["prox"]} ∧
    (∀ K, K ∈ _base_operators →
          properties K = (properties_of f ∩ properties_of g) ∖ {["prox"]} → K = Op) ∧
    shape_at r 0 = Ok c ∧
    class_of r = (if bool_decide (c = 1) then functional_counterpart Op else Op) ∧
    properties_of r =
      (if bool_decide (c = 1) then
         (properties_of f ∩ properties_of g) ∖ {["prox"]} ∪ {["single_valued"]} ∪
         (if bool_decide ("jacobian" ∈ properties_of f ∩ properties_of g)
          then {["gradient"]} else ∅)
       else (properties_of f ∩ properties_of g) ∖ {["prox"]}).
Proof.
  intros Hf (f' & g' & s1 & s2 & sh & Op' & out0 & out1 & [= <-] & [= <-] & Hg & _ & _ & _ &
             HOp & H0 & H1 & Hr)%Property_add_inv.
  destruct (map_class_properties _ Hf) as (K1 & HK1 & E1).
  destruct (map_class_properties _ Hg) as (K2 & HK2 & E2).
  destruct (shared_base_kind K1 K2 HK1 HK2) as (Op & HOpb & HP).
  unfold properties_of in *. rewrite E1, E2 in *. rewrite <- HP in *.
  rewrite (resolve_op_match _ Op HOpb eq_refl) in HOp. injection HOp as <-.
  pose proof H0 as (Hc0 & Hu0 & _)%construct_inv.
  pose proof H1 as (Hc1 & Hu1 & Hd1)%for_each_frame.
  2:{ intros o1 p o2 _. apply add_loop_body. }
  rewrite Hc0 in Hc1.
  apply squeeze_inv in Hr as (c & out & Hc & Hout & Hr). rewrite Hc1 in Hout.
  exists Op, c. split; [done|]. split; [done|].
  split; [intros K HK EK; by apply base_properties_inj|].
  assert (shape_at r 0 = Ok c ∧
          class_of r = (if bool_decide (c = 1) then functional_counterpart Op else Op))
    as [Hsh Hcl].
  { destruct (decide (c = 1)) as [-> | Hne].
    - rewrite bool_decide_eq_true_2 in Hr |- * by done.
      split; [by eapply specialize_codim|].
      apply specialize_inv in Hr as [(Er & Eo & _) | (Er & _ & Hsub & _)].
      + subst r. rewrite Hc1 in Eo |- *. subst out.
        rewrite squeeze_out_table in Hout.
        destruct Op; try discriminate; reflexivity.
      + rewrite Er. clear Er. unfold properties_of in Hsub. rewrite Hc1 in Hsub.
        rewrite squeeze_out_table in Hout. unfold _base_operators in HOpb.
        list_cases HOpb; injection Hout as <-; try reflexivity;
          exfalso; apply Hsub; rewrite !properties_table; (split; [compute_done | compute_refute]).
    - rewrite bool_decide_eq_false_2 in Hr |- * by done. by subst r. }
  split; [done|]. split; [done|]. rewrite Hcl.
  assert (bool_decide ("jacobian" ∈ properties K1 ∩ properties K2)
          = bool_decide ("jacobian" ∈ properties Op)) as ->.
  { apply bool_decide_ext. rewrite HP, elem_of_difference, elem_of_singleton.
    split; [done | by intros [? _]]. }
  case_bool_decide as Ec; [|done].
  subst c.
  unfold _base_operators in HOpb.
  list_cases HOpb; unfold functional_counterpart; rewrite !properties_table;
    (compute_done).
Qed.

End Sum.

(** * The engine on explicit operators *)

Lemma outcome_Raise {A} (r : result A) e : outcome r = Raise e → r = Raise e.
Proof. destruct r; [discriminate | by intros [= ->]]. Qed.

Lemma outcome_Ok {A} (r : result A) : outcome r = Ok tt → ∃ a, r = Ok a.
Proof. destruct r; [eauto | discriminate]. Qed.

Lemma array_of_Ok r a : Toy.array_of r = Ok a → r = Ok (VArr a).
Proof. destruct r as [[]|]; try discriminate. by intros [= ->]. Qed.

Lemma number_of_Ok r a : Toy.number_of r = Ok a → r = Ok (VNum a).
Proof. destruct r as [[]|]; try discriminate. by intros [= ->]. Qed.

(** Run a closed computation and compare what it returns. *)
Ltac run :=
  first [ apply outcome_Raise | apply array_of_Ok | apply number_of_Ok | idtac ];
  vm_compute; reflexivity.

(** C1 (what the code does): the sum of two differentiable functionals and
    the composition of a differentiable functional with a linear operator
    do not return: the result is resolved to [DiffFunc], whose [squeeze]
    is [Map.squeeze], and specializing a [DiffFunc] to [Func] is
    refused. *)
Theorem differentiable_functional_algebra_raises :
  op_add Toy.py Toy.sq_norm (VOp Toy.sq_norm) = Raise (ValueError CannotSpecialize) ∧
  op_mul Toy.py Toy.sq_norm (VOp Toy.swap_op) = Raise (ValueError CannotSpecialize).
Proof. split; run. Qed.

(** C3 (what the code does): squeezing a differentiable map with a single
    output row gives a [DiffFunc], and squeezing that raises. *)
Theorem squeeze_twice_raises :
  (let* r := squeeze Toy.py Toy.diff_row in Ok (class_of r)) = Ok DiffFunc ∧
  (let* r := squeeze Toy.py Toy.diff_row in squeeze Toy.py r)
    = Raise (ValueError CannotSpecialize).
Proof. split; run. Qed.

(** The scenario of two scalings by 2 and by 3: their sum applies as the
    scaling by 5, but reports the bound [+∞] where the bounds add up to 5. *)
Example sum_of_scalings :
  (let* r := op_add Toy.py Toy.scale2 (VOp Toy.scale3) in
   call_method Toy.py r "apply" (VArr [Toy.q 1; Toy.q 1; Toy.q 1]))
    = Ok (VArr [Toy.q 5; Toy.q 5; Toy.q 5]) ∧
  (let* r := op_add Toy.py Toy.scale2 (VOp Toy.scale3) in lipschitz Toy.py r)
    = Ok (VNum Toy.Inf) ∧
  (let* a := lipschitz Toy.py Toy.scale2 in
   let* b := lipschitz Toy.py Toy.scale3 in Toy.py Add a b)
    = Ok (VNum (Toy.q 5)).
Proof. repeat split; run. Qed.

Example scalar_multiple_raises :
  Toy.py Mul (VNum (Toy.q 2)) (VOp Toy.plain_map) = Raise NameError.
Proof. run. Qed.

(** * The theorems on explicit operators *)

Lemma derived_lipschitz_is_inf_witness :
  ∃ r, op_add Toy.py Toy.scale2 (VOp Toy.scale3) = Ok r ∧
       lipschitz Toy.py r = Ok (VNum inf).
Proof.
  destruct (op_add Toy.py Toy.scale2 (VOp Toy.scale3)) as [r|e] eqn:E.
  - exists r. split; [reflexivity|].
    apply (derived_lipschitz_is_inf Toy.py Toy.scale2 (VOp Toy.scale3) r). by left.
  - exfalso.
    assert (outcome (op_add Toy.py Toy.scale2 (VOp Toy.scale3)) = Ok tt) as Ho
      by (vm_compute; reflexivity).
    rewrite E in Ho. discriminate Ho.
Defined.

Lemma unitary_composition_prox_witness :
  ∃ r, op_mul Toy.py Toy.half_sq (VOp Toy.swap_op) = Ok r ∧
       (class_of r = Map ∨ class_of r = Func) ∧ ("prox" ∉ properties_of r).
Proof.
  destruct (op_mul Toy.py Toy.half_sq (VOp Toy.swap_op)) as [r|e] eqn:E.
  - exists r. split; [reflexivity|].
    destruct (unitary_composition_prox Toy.py Toy.half_sq Toy.swap_op r) as (Hc & Hp & _);
      [vm_compute; reflexivity | vm_compute; reflexivity | exact E | by split].
  - exfalso.
    assert (outcome (op_mul Toy.py Toy.half_sq (VOp Toy.swap_op)) = Ok tt) as Ho
      by (vm_compute; reflexivity).
    rewrite E in Ho. discriminate Ho.
Defined.

Lemma construction_checks_witness :
  is_ok (construct Map (VTuple [0; -3])) = true ∧
  construct Func (VTuple [2; 3]) = Raise (ValueError FunctionalForm) ∧
  is_ok (construct Func (VTuple [1; 3])) = true.
Proof.
  destruct (construction_checks (H := Toy.host) [0; -3] 2 3) as (H1 & H2 & H3); [lia|].
  rewrite H1, H2, H3. repeat split.
Defined.

(** [Map((0, -3))] and [Func((0, 5))] are constructed. *)
Lemma construct_nonpositive_counterexample :
  is_ok (construct (H := Toy.host) Map (VTuple [0; -3])) = true ∧
  is_ok (construct (H := Toy.host) Func (VTuple [0; 5])) = true.
Proof. split; vm_compute; reflexivity. Qed.


Lemma specialize_behaviour_witness :
  ∃ r, specialize Toy.py Toy.plain_map LinOp = Ok r ∧ class_of r = LinOp.
Proof.
  assert (outcome (let* sh := shape Toy.plain_map in construct LinOp sh) = Ok tt) as Ho
    by (vm_compute; reflexivity).
  destruct (shape Toy.plain_map) as [sh|e] eqn:Esh; [|discriminate Ho].
  rewrite bind_Ok in Ho.
  destruct (construct LinOp sh) as [obj|e] eqn:Eobj; [|discriminate Ho].
  assert (¬ (properties LinOp ⊂ properties_of Toy.plain_map)) as Hn.
  { intros [_ Hs]. revert Hs. unfold properties_of.
    assert (class_of Toy.plain_map = Map) as -> by (vm_compute; reflexivity).
    rewrite !properties_table.
    intros Hs. apply Hs. compute_done. }
  pose proof (proj2 (specialize_behaviour Toy.py Toy.plain_map LinOp) sh obj Hn Esh Eobj)
    as (r & Hr & Hc).
  exists r. split; [exact Hr | exact Hc].
Defined.

(** A plain map is specialized to a linear operator, whose capabilities
    it lacks; a linear operator is refused as a plain map, whose
    capabilities it has. *)
Lemma specialize_counterexample :
  ¬ (properties LinOp ⊆ properties_of Toy.plain_map) ∧
  outcome (specialize Toy.py Toy.plain_map LinOp) = Ok tt ∧
  properties Map ⊆ properties_of Toy.scale2 ∧
  specialize Toy.py Toy.scale2 Map = Raise (ValueError CannotSpecialize).
Proof.
  unfold properties_of.
  change (class_of Toy.plain_map) with Map. change (class_of Toy.scale2) with LinOp.
  rewrite !properties_table.
  split; [compute_refute|]. split; [vm_compute; reflexivity|].
  split; [compute_done|]. apply outcome_Raise. vm_compute. reflexivity.
Qed.

Lemma sum_kind_witness :
  ∃ r Op c, Property_add Toy.py (VOp Toy.scale2) (VOp Toy.scale3) = Ok r ∧
            Op ∈ _base_operators ∧ shape_at r 0 = Ok c ∧
            class_of r = (if bool_decide (c = 1) then functional_counterpart Op else Op).
Proof.
  assert (outcome (Property_add Toy.py (VOp Toy.scale2) (VOp Toy.scale3)) = Ok tt) as Ho
    by (vm_compute; reflexivity).
  destruct (Property_add Toy.py (VOp Toy.scale2) (VOp Toy.scale3)) as [r|e] eqn:E;
    [|discriminate Ho].
  assert (isinstance Toy.scale2 Map = true) as H1 by (vm_compute; reflexivity).
  pose proof (sum_kind Toy.py Toy.scale2 Toy.scale3 r H1 E)
    as (Op & c & HOp & _ & _ & Hc & Hcl & _).
  exists r, Op, c. split; [reflexivity|]. split; [exact HOp|]. split; [exact Hc | exact Hcl].
Defined.

(** The sum of two differentiable maps with a single output row is a
    differentiable functional: it has the capability [gradient], which
    neither operand has, and its kind is not the one whose capabilities
    are the shared ones. *)
Lemma sum_of_rows_counterexample :
  ∃ r, Property_add Toy.py (VOp Toy.diff_row) (VOp Toy.diff_row) = Ok r ∧
       class_of r = DiffFunc ∧
       "gradient" ∈ properties_of r ∧
       ("gradient" ∉ properties_of Toy.diff_row ∩ properties_of Toy.diff_row) ∧
       properties_of r ≠
         (properties_of Toy.diff_row ∩ properties_of Toy.diff_row) ∖ {["prox"]}.
Proof.
  assert ((let* r := Property_add Toy.py (VOp Toy.diff_row) (VOp Toy.diff_row) in
           Ok (class_of r)) = Ok DiffFunc) as Hk by (vm_compute; reflexivity).
  destruct (Property_add Toy.py (VOp Toy.diff_row) (VOp Toy.diff_row)) as [r|e] eqn:E;
    [|discriminate Hk].
  rewrite bind_Ok in Hk. injection Hk as Hk.
  assert (class_of Toy.diff_row = DiffMap) as Hd by (vm_compute; reflexivity).
  exists r. split; [reflexivity|]. split; [exact Hk|].
  unfold properties_of. rewrite Hk, Hd, !properties_table.
  split; [compute_done|]. split; compute_refute.
Qed.


(** * Further properties of the engine *)

(** X1: a class has every capability of the classes it derives from:
    [issubclass(c, d)] implies [d.properties() <= c.properties()]. *)
Theorem capabilities_grow_down (c d : pyclass) :
  issubclass c d = true → properties d ⊆ properties c.
Proof.
  unfold issubclass. intros Hd%bool_decide_eq_true_1. revert Hd.
  destruct c;
    match goal with
    | |- _ ∈ mro ?k → _ =>
        let l := eval vm_compute in (mro k) in
        change (mro k) with l
    end;
    intros Hd; list_cases Hd; rewrite !properties_table; (compute_done).
Qed.

Lemma capabilities_grow_down_witness : properties Map ⊆ properties LinFunc.
Proof. apply (capabilities_grow_down LinFunc Map). vm_compute. reflexivity. Defined.

Section Further.
Context `{H : Host} `{Im : !Imports}.
Variable dyn : binop → value → value → result value.

(** X2: the loop [for Op in _base_operators: if Op.properties() ==
    shared_props: break] stops at the base kind whose capabilities are
    [shared_props], in whatever order the frozen set is visited; when no
    base kind matches it does not fail: [Op] stays at the kind visited
    last. *)
Theorem kind_resolution :
  (∀ K, K ∈ _base_operators → resolve_op (properties K) = Some K) ∧
  (∀ P, (∀ K, K ∈ _base_operators → properties K ≠ P) →
        resolve_op P = last base_order ∧ is_Some (resolve_op P)).
Proof.
  split.
  - intros K HK. by apply resolve_op_match.
  - intros P HP. unfold resolve_op.
    destruct (List.find _ base_order) as [K|] eqn:E.
    + apply find_some in E as [E1 E2]. apply list_elem_of_In, base_order_elem in E1.
      apply bool_decide_eq_true_1 in E2. by destruct (HP K E1).
    + split; [done|].
      destruct (last base_order) as [K|] eqn:EL; [by eexists|].
      apply last_None in EL. pose proof base_order_perm as Hp.
      rewrite EL in Hp. by apply Permutation_nil_l in Hp.
Qed.

(** X4: [f ** k] for an integer [k] other than 0 that is at most 1 is
    [f] itself, so a negative power is no inverse; [f ** 2] is [f * f];
    a power that is not an integer raises [NotImplementedError]. *)
Theorem power_edge_cases (f : op) (p : scalar) (k : Z) :
  s_int p = Some k → k ≠ 0 →
  ((k ≤ 1)%Z → Property_pow dyn f (VNum p) = Ok f) ∧
  (k = 2 → Property_pow dyn f (VNum p) = op_mul dyn f (VOp f)) ∧
  (∀ p', s_int p' = None → Property_pow dyn f (VNum p') = Raise NotImplementedError) ∧
  (∀ x : arr, Property_pow dyn f (VArr x) = Raise NotImplementedError).
Proof.
  intros Hp Hk. unfold Property_pow. rewrite Hp.
  rewrite bool_decide_eq_false_2 by done. repeat split.
  - intros Hle. replace (Z.to_nat (k - 1)) with 0%nat by lia. reflexivity.
  - intros ->. simpl. by destruct (op_mul dyn f (VOp f)).
  - by intros p' ->.
Qed.

(** X5: a projection is idempotent under [**]: for an instance of
    [ProjOp] or [OrthProjOp], [P ** power] is [P] itself for every power
    that the test [power == 0] finds different from 0, the [__pow__] of
    [ProjOp] coming first in the method resolution order of both
    classes.  On a number the test is the host's comparison; on an array
    it is the truth value of the entrywise comparison, and when the host
    refuses to give one (an array of several entries) [P ** power] raises
    what the host raises. *)
Theorem projection_power (f : op) (power : value) :
  class_of f = ProjOp ∨ class_of f = OrthProjOp →
  (match as_real power with
   | Some p => s_is_zero p = false
   | None => match power with VArr a => a_is_zero a = Ok false | _ => True end
   end → op_pow dyn f power = Ok f) ∧
  (∀ (a : arr) e, a_is_zero a = Raise e → op_pow dyn f (VArr a) = Raise e).
Proof.
  intros Hc.
  assert (mro_lookup (class_of f) "__pow__" = Some ProjOp) as Hl.
  { destruct Hc as [-> | ->]; (compute_done). }
  unfold op_pow. rewrite Hl. unfold ProjOp_pow. split.
  - intros Hp. destruct (as_real power) as [p|]; [by rewrite Hp|].
    destruct power; try done. by rewrite Hp.
  - intros a e Ha. simpl. by rewrite Ha.
Qed.

End Further.


Lemma kind_resolution_witness :
  resolve_op (properties LinOp) = Some LinOp ∧ resolve_op (∅ : gset string) = last base_order.
Proof.
  destruct (kind_resolution (H := Toy.host) (Im := Toy.imports)) as [H1 H2]. split.
  - apply H1. unfold _base_operators. rewrite !elem_of_cons. tauto.
  - apply H2. intros K HK. unfold _base_operators in HK.
    list_cases HK; rewrite properties_table; compute_refute.
Defined.

Lemma power_edge_cases_witness :
  Property_pow Toy.py Toy.plain_map (VNum (Toy.q (-3))) = Ok Toy.plain_map.
Proof.
  assert (s_int (Toy.q (-3)) = Some (-3)) as H1 by reflexivity.
  assert (-3 ≠ 0) as H2 by lia.
  destruct (power_edge_cases Toy.py Toy.plain_map (Toy.q (-3)) (-3) H1 H2) as [Hk _].
  apply Hk. lia.
Defined.

Lemma projection_power_witness :
  op_pow Toy.py (Instance (H := Toy.host) ProjOp false ∅) (VNum (H := Toy.host) (Toy.q 5))
  = Ok (Instance ProjOp false ∅).
Proof.
  apply (projection_power (H := Toy.host) (Im := Toy.imports) Toy.py).
  - left. reflexivity.
  - reflexivity.
Defined.

(** ** Constructors *)

(** Evaluate the chain of initialisers of a given class. *)
Ltac eval_init :=
  repeat match goal with
  | |- context [first_init (mro ?c)] =>
      let r := eval vm_compute in (first_init (mro c)) in
      change (first_init (mro c)) with r
  | |- context [next_init (mro ?c) ?k] =>
      let r := eval vm_compute in (next_init (mro c) k) in
      change (next_init (mro c) k) with r
  end; cbv beta iota.

Ltac init_chain :=
  unfold construct; eval_init;
  repeat (rewrite run_init_S; unfold init_body, as_tuple; eval_init; rewrite ?bind_Ok).

Section Constructors.
Context `{H : Host} `{Im : !Imports}.
Variable dyn : binop → value → value → result value.

Ltac shape_lookup :=
  unfold shape; simpl dict_of;
  rewrite ?lookup_insert_ne by done; rewrite lookup_insert_eq; reflexivity.

(** X6: the constructor of a square kind refuses a shape whose first two
    entries differ and otherwise stores the square shape made of the
    first entry: entries after the second are ignored, and a one-entry
    shape [(m,)] gives [(m, m)]. *)
Theorem square_construction (c : pyclass) (m n : Z) (rest : list Z) :
  c ∈ [SquareOp; NormalOp; SelfAdjointOp; UnitOp; ProjOp; OrthProjOp; PosDefOp] →
  (m ≠ n →
   construct c (VTuple (m :: n :: rest)) = Raise (ValueError InconsistentSquareShape)) ∧
  (∃ o, construct c (VTuple (m :: m :: rest)) = Ok o ∧ class_of o = c ∧
        shape o = Ok (VTuple [m; m])) ∧
  (∃ o, construct c (VTuple [m]) = Ok o ∧ class_of o = c ∧ shape o = Ok (VTuple [m; m])).
Proof.
  intros Hc. split; [|split].
  - intros Hmn. list_cases Hc; init_chain; rewrite bool_decide_eq_true_2 by done;
      reflexivity.
  - list_cases Hc; init_chain; rewrite bool_decide_eq_false_2 by (intros ?; done);
      init_chain; rewrite bool_decide_eq_false_2 by (simpl; lia); rewrite ?bind_Ok;
      (eexists; split; [reflexivity|]; split; [reflexivity|]; shape_lookup).
  - list_cases Hc; init_chain; rewrite bool_decide_eq_false_2 by (simpl; lia);
      rewrite ?bind_Ok;
      (eexists; split; [reflexivity|]; split; [reflexivity|]; shape_lookup).
Qed.

(** X7: a freshly constructed [UnitOp] or [OrthProjOp] reports the
    Lipschitz bound 1, whatever shape it was given. *)
Theorem unit_bound (c : pyclass) (sh : value) (o : op) :
  c = UnitOp ∨ c = OrthProjOp → construct c sh = Ok o →
  lipschitz dyn o = Ok (VNum (of_Z 1)).
Proof.
  intros Hc Ho.
  pose proof (construct_frame _ _ _ "lipschitz" Ho) as Hm.
  pose proof Ho as (Hcl & _ & k & Hk & Hrun)%construct_inv.
  assert (dict_of o !! "_lipschitz" = Some (VNum (of_Z 1))) as Hl.
  { revert Hk Hrun. destruct Hc as [-> | ->]; eval_init; intros [= <-];
      rewrite run_init_S; unfold init_body;
      intros (d1 & _ & [= <-])%bind_Ok_inv; apply lookup_insert_eq. }
  unfold lipschitz, getattr. rewrite Hm by compute_refute. rewrite Hcl.
  destruct Hc as [-> | ->];
    match goal with
    | |- context [mro_lookup ?c ?n] =>
        let r := eval vm_compute in (mro_lookup c n) in
        change (mro_lookup c n) with r
    end; cbv beta iota;
    unfold class_attr, class_attr0, call0, dict_lookup; simpl; by rewrite Hl.
Qed.

(** X8: a one-entry shape [(n,)] is completed to [(1, n)] by the
    constructors of [Func], [ProxFunc] and [DiffFunc]; [LinFunc((n,))]
    ends with the shape [(n,)] as given, the second initialiser
    [LinOp.__init__] overwriting what [DiffFunc.__init__] stored, so that
    [shape[1]] raises [IndexError]. *)
Theorem one_entry_shape (n : Z) :
  (∀ c, c ∈ [Func; ProxFunc; DiffFunc] →
        ∃ o, construct c (VTuple [n]) = Ok o ∧ shape o = Ok (VTuple [1; n])) ∧
  (∃ o, construct LinFunc (VTuple [n]) = Ok o ∧ shape o = Ok (VTuple [n]) ∧
        shape_at o 1 = Raise IndexError).
Proof.
  split.
  - intros c Hc. list_cases Hc; init_chain;
      rewrite ?bool_decide_eq_true_2 by reflexivity; rewrite ?bind_Ok; init_chain;
      rewrite bool_decide_eq_false_2 by (simpl; lia); rewrite ?bind_Ok;
      (eexists; split; [reflexivity|]; shape_lookup).
  - init_chain. rewrite ?bool_decide_eq_true_2 by reflexivity. rewrite ?bind_Ok.
    init_chain. rewrite !bool_decide_eq_false_2 by (simpl; lia). rewrite ?bind_Ok.
    init_chain. rewrite !bool_decide_eq_false_2 by (simpl; lia). rewrite ?bind_Ok.
    eexists. split; [reflexivity|].
    assert (∀ o : op, shape o = Ok (VTuple [n]) → shape_at o 1 = Raise IndexError) as Hi.
    { intros o Ho. unfold shape_at. by rewrite Ho. }
    match goal with |- ?A ∧ _ => assert A as Hs by shape_lookup end.
    split; [exact Hs | by apply Hi].
Qed.

(** X9: [_HomothetyOp(cst, dim)] refuses a [cst] that is not a real
    number; for a real [cst] it builds a homothety of shape [(dim, dim)]
    that keeps [cst], reports the Lipschitz bound [|cst|] and the
    diff-Lipschitz bound 0. *)
Theorem homothety_construction (cst : value) (dim : Z) :
  (as_real cst = None → construct_HomothetyOp cst dim = Raise (ValueError CstNotReal)) ∧
  (∀ c, as_real cst = Some c →
        ∃ h, construct_HomothetyOp cst dim = Ok h ∧ class_of h = _HomothetyOp ∧
             shape h = Ok (VTuple [dim; dim]) ∧ dict_of h !! "_cst" = Some cst ∧
             lipschitz dyn h = Ok (VNum (s_abs c)) ∧
             diff_lipschitz dyn h = Ok (VNum (of_Z 0))).
Proof.
  split.
  - intros Hc. unfold construct_HomothetyOp. by rewrite Hc.
  - intros c Hc. unfold construct_HomothetyOp. rewrite Hc. eval_init.
    repeat (rewrite run_init_S; unfold init_body, as_tuple; eval_init; rewrite ?bind_Ok).
    rewrite bool_decide_eq_false_2 by (intros ?; done).
    repeat (rewrite run_init_S; unfold init_body, as_tuple; eval_init; rewrite ?bind_Ok).
    rewrite bool_decide_eq_false_2 by (simpl; lia). rewrite ?bind_Ok.
    eexists. split; [reflexivity|]. split; [reflexivity|].
    split; [shape_lookup|].
    split; [simpl dict_of; rewrite ?lookup_insert_ne by done; apply lookup_insert_eq|].
    split.
    + unfold lipschitz, getattr. simpl dict_of. simpl class_of.
      rewrite !lookup_insert_ne, lookup_empty by done.
      replace (mro_lookup _HomothetyOp "lipschitz") with (Some Map)
        by (symmetry; compute_done).
      unfold class_attr, class_attr0, call0, dict_lookup. simpl.
      rewrite ?lookup_insert_ne by done. by rewrite lookup_insert_eq.
    + unfold diff_lipschitz, getattr. simpl dict_of. simpl class_of.
      rewrite !lookup_insert_ne, lookup_empty by done.
      replace (mro_lookup _HomothetyOp "diff_lipschitz") with (Some DiffMap)
        by (symmetry; compute_done).
      unfold class_attr, class_attr0, call0, dict_lookup. simpl.
      by rewrite lookup_insert_eq.
Qed.

End Constructors.

Lemma square_construction_witness :
  construct (H := Toy.host) UnitOp (VTuple [2; 3]) = Raise (ValueError InconsistentSquareShape) ∧
  ∃ o, construct (H := Toy.host) UnitOp (VTuple [2]) = Ok o ∧ shape o = Ok (VTuple [2; 2]).
Proof.
  destruct (square_construction (H := Toy.host) UnitOp 2 3 []) as (H1 & _ & o & Ho & _ & Hs).
  - rewrite !elem_of_cons. tauto.
  - split; [apply H1; lia|]. exists o. split; [exact Ho | exact Hs].
Defined.

Lemma unit_bound_witness :
  ∃ o, construct (H := Toy.host) UnitOp (VTuple [2; 2]) = Ok o ∧
       lipschitz Toy.py o = Ok (VNum (of_Z 1)).
Proof.
  assert (is_ok (construct (H := Toy.host) UnitOp (VTuple [2; 2])) = true) as Hk
    by (vm_compute; reflexivity).
  destruct (construct (H := Toy.host) UnitOp (VTuple [2; 2])) as [o|e] eqn:E;
    [|discriminate Hk].
  exists o. split; [reflexivity|].
  exact (unit_bound Toy.py UnitOp (VTuple [2; 2]) o (or_introl eq_refl) E).
Defined.

Lemma one_entry_shape_witness :
  ∃ o, construct (H := Toy.host) Func (VTuple [5]) = Ok o ∧ shape o = Ok (VTuple [1; 5]).
Proof.
  destruct (one_entry_shape (H := Toy.host) 5) as [H1 _].
  apply H1. rewrite !elem_of_cons. tauto.
Defined.

Lemma homothety_construction_witness :
  ∃ h, construct_HomothetyOp (VNum (H := Toy.host) (Toy.q (-2))) 3 = Ok h ∧
       lipschitz Toy.py h = Ok (VNum (H := Toy.host) (Toy.q 2)).
Proof.
  destruct (homothety_construction (H := Toy.host) Toy.py
              (VNum (H := Toy.host) (Toy.q (-2))) 3) as [_ H2].
  destruct (H2 (Toy.q (-2)) eq_refl) as (h & Hh & _ & _ & _ & Hl & _).
  exists h. split; [exact Hh | exact Hl].
Defined.

(** ** [squeeze], [specialize] and the errors of the algebra *)

Section Squeezing.
Context `{H : Host} `{Im : !Imports}.
Variable dyn : binop → value → value → result value.

(** X10: [squeeze] keeps the codomain size: what it returns has the
    [shape[0]] of the instance it was called on. *)
Theorem squeeze_keeps_codomain (self r : op) :
  squeeze dyn self = Ok r → shape_at r 0 = shape_at self 0.
Proof.
  intros (c & out & Hc & _ & Hr)%squeeze_inv. rewrite Hc.
  destruct (decide (c = 1)) as [-> | Hne].
  - rewrite bool_decide_eq_true_2 in Hr by done. by eapply specialize_codim.
  - rewrite bool_decide_eq_false_2 in Hr by done. by subst r.
Qed.

(** X11: [squeeze] raises on every differentiable functional and every
    proximable functional with one output row: neither [DiffFunc] nor
    [ProxFunc] overrides [squeeze], so [Map.squeeze] asks for a [Func],
    which [specialize] refuses. *)
Theorem functional_squeeze_raises (f : op) :
  class_of f = DiffFunc ∨ class_of f = ProxFunc → shape_at f 0 = Ok 1 →
  squeeze dyn f = Raise (ValueError CannotSpecialize).
Proof.
  intros Hc Hs. unfold squeeze. rewrite squeeze_out_table.
  assert (match class_of f with
          | Property_ | SingledValued | Apply | Differential | Gradient | Adjoint
          | Proximal => None
          | Map | Func | ProxFunc | DiffFunc => Some Func
          | DiffMap => Some DiffFunc
          | _ => Some LinFunc
          end = Some Func) as -> by (by destruct Hc as [-> | ->]).
  unfold _squeeze. rewrite Hs, bind_Ok, bool_decide_eq_true_2 by done.
  unfold specialize, properties_of.
  rewrite (bool_decide_eq_false_2 (Func = class_of f)) by (by destruct Hc as [-> | ->]).
  rewrite andb_false_l, bool_decide_eq_true_2; [done|].
  destruct Hc as [-> | ->]; rewrite !properties_table;
    (split; [compute_done | compute_refute]).
Qed.

(** X12: squeezing a differentiable map or a linear operator with one
    output row gives a functional without a [gradient] of its own: the
    test [cast_to.has("single_valued")] of [specialize] is made on the
    letters of the string and fails, so no gradient is made from the
    Jacobian, and [gradient(x)] raises [NotImplementedError]. *)
Theorem squeezed_gradient_missing (f r : op) (x : arr) :
  isinstance f DiffMap = true → "gradient" ∉ properties_of f →
  shape_at f 0 = Ok 1 → squeeze dyn f = Ok r →
  (class_of r = DiffFunc ∨ class_of r = LinFunc) ∧
  dict_of r !! "gradient" = None ∧
  call_method dyn r "gradient" (VArr x) = Raise NotImplementedError.
Proof.
  intros Hf Hg Hs (c & out & Hc & Hout & Hr)%squeeze_inv.
  rewrite Hs in Hc. injection Hc as <-. rewrite bool_decide_eq_true_2 in Hr by done.
  assert (out = DiffFunc ∨ out = LinFunc) as Ho.
  { revert Hf Hg Hout. unfold isinstance, properties_of.
    rewrite squeeze_out_table, properties_table.
    destruct (class_of f); intros Hf Hg [= <-]; try (by left); try (by right);
      exfalso; first [ by (revert Hf; compute_refute) | apply Hg; compute_done ]. }
  apply specialize_inv in Hr
    as [(-> & -> & _) | (Hcl & _ & _ & sh & obj & _ & Hobj & Hframe & _)].
  { exfalso. apply Hg. unfold properties_of.
    destruct Ho as [E | E]; rewrite E, properties_table; compute_done. }
  assert (dict_of r !! "gradient" = None) as Hd.
  { rewrite Hframe by done. eapply construct_frame; [done|]. compute_refute. }
  rewrite Hcl. split; [done|]. split; [done|].
  unfold call_method, getattr. rewrite Hd, Hcl.
  destruct Ho as [-> | ->];
    match goal with
    | |- context [mro_lookup ?c ?n] =>
        let r := eval vm_compute in (mro_lookup c n) in
        change (mro_lookup c n) with r
    end; reflexivity.
Qed.

End Squeezing.

Lemma squeeze_keeps_codomain_witness :
  ∃ r, squeeze Toy.py Toy.row_sum = Ok r ∧ shape_at r 0 = shape_at Toy.row_sum 0.
Proof.
  assert (outcome (squeeze Toy.py Toy.row_sum) = Ok tt) as Ho by (vm_compute; reflexivity).
  destruct (squeeze Toy.py Toy.row_sum) as [r|e] eqn:E; [|discriminate Ho].
  exists r. split; [reflexivity|].
  exact (squeeze_keeps_codomain Toy.py Toy.row_sum r E).
Defined.

Lemma functional_squeeze_raises_witness :
  squeeze Toy.py Toy.sq_norm = Raise (ValueError CannotSpecialize).
Proof.
  apply (functional_squeeze_raises Toy.py Toy.sq_norm).
  - left. vm_compute. reflexivity.
  - vm_compute. reflexivity.
Defined.

Lemma squeezed_gradient_missing_witness :
  ∃ r, squeeze Toy.py Toy.diff_row = Ok r ∧
       call_method Toy.py r "gradient" (VArr (H := Toy.host) [Toy.q 1])
       = Raise NotImplementedError.
Proof.
  assert (outcome (squeeze Toy.py Toy.diff_row) = Ok tt) as Ho by (vm_compute; reflexivity).
  destruct (squeeze Toy.py Toy.diff_row) as [r|e] eqn:E; [|discriminate Ho].
  assert (isinstance Toy.diff_row DiffMap = true) as H1 by (vm_compute; reflexivity).
  assert ("gradient" ∉ properties_of Toy.diff_row) as H2.
  { unfold properties_of.
    assert (class_of Toy.diff_row = DiffMap) as -> by (vm_compute; reflexivity).
    rewrite properties_table. compute_refute. }
  assert (shape_at Toy.diff_row 0 = Ok 1) as H3 by (vm_compute; reflexivity).
  destruct (squeezed_gradient_missing Toy.py Toy.diff_row r [Toy.q 1] H1 H2 H3 E)
    as (_ & _ & Hg).
  exists r. split; [reflexivity | exact Hg].
Defined.

Section Errors.
Context `{H : Host} `{Im : !Imports}.
Variable dyn : binop → value → value → result value.

Lemma mul_dispatch c :
  mro_lookup c "__mul__" = Some ProxFunc ∨ mro_lookup c "__mul__" = Some _HomothetyOp ∨
  mro_lookup c "__mul__" = Some Property_.
Proof.
  destruct c;
    first [ left; (compute_done) | right; left; (compute_done) | right; right; (compute_done) ].
Qed.

Lemma add_dispatch c :
  c ≠ LinFunc →
  mro_lookup c "__add__" = Some ProxFunc ∨ mro_lookup c "__add__" = Some Property_.
Proof.
  intros Hc. destruct c; try done;
    first [ left; (compute_done) | right; (compute_done) ].
Qed.

(** An error of [Property.__mul__] is the error of [*], whatever the class
    of the receiver. *)
Lemma op_mul_error (f : op) (other : value) e :
  Property_mul dyn f other = Raise e → op_mul dyn f other = Raise e.
Proof.
  intros He. unfold op_mul.
  destruct (mul_dispatch (class_of f)) as [-> | [-> | ->]]; [| |done].
  - unfold ProxFunc_mul. by rewrite He.
  - unfold HomothetyOp_mul, HomothetyOp_mul_with. by rewrite He.
Qed.

(** X13: the errors of [f * g], for a receiver [f] of any class: a right
    operand that is neither a number nor an instance of [Map] raises
    [NotImplementedError]; an instance of [Map] whose [shape[0]] is not
    [f.shape[1]] raises the [ValueError] of inconsistent shapes. *)
Theorem composition_errors (f g : op) (a b : Z) :
  (isinstance g Map = false → op_mul dyn f (VOp g) = Raise NotImplementedError) ∧
  (∀ x : arr, op_mul dyn f (VArr x) = Raise NotImplementedError) ∧
  (isinstance g Map = true → shape_at f 1 = Ok a → shape_at g 0 = Ok b → a ≠ b →
   op_mul dyn f (VOp g) = Raise (ValueError InconsistentComposeShapes)).
Proof.
  split; [|split].
  - intros Hg. apply op_mul_error. unfold Property_mul, Property_mul_map. simpl.
    by rewrite Hg.
  - intros x. by apply op_mul_error.
  - intros Hg Ha Hb Hab. apply op_mul_error. unfold Property_mul, Property_mul_map. simpl.
    rewrite Hg, Ha, Hb. simpl. by rewrite bool_decide_eq_true_2.
Qed.

(** X14: the errors of [f + other] for a receiver that is not a
    [LinFunc]: a right operand that is not an instance of [Map] raises
    [NotImplementedError], and an instance of [Map] whose shape cannot be
    broadcast against the shape of [f] raises the [ValueError] of
    inconsistent shapes.  A [LinFunc] hands the sum to
    [ProxFunc.__add__(other, self)]: with a number on the right it raises
    [AttributeError], the number having no shape. *)
Theorem sum_errors (f g : op) (s1 s2 junk : value) :
  (class_of f ≠ LinFunc →
     (isinstance g Map = false → op_add dyn f (VOp g) = Raise NotImplementedError) ∧
     (∀ c : scalar, op_add dyn f (VNum c) = Raise NotImplementedError) ∧
     (isinstance g Map = true → shape f = Ok s1 → shape g = Ok s2 →
      broadcast_sum_shapes s1 s2 = Ok (false, junk) →
      op_add dyn f (VOp g) = Raise (ValueError InconsistentSumShapes))) ∧
  (class_of f = LinFunc → ∀ c : scalar, op_add dyn f (VNum c) = Raise AttributeError).
Proof.
  split.
  - intros Hc.
    assert (∀ other e, Property_add dyn (VOp f) other = Raise e →
                       op_add dyn f other = Raise e) as Herr.
    { intros other e He. unfold op_add.
      destruct (add_dispatch _ Hc) as [-> | ->]; [|done].
      unfold ProxFunc_add. by rewrite He. }
    split; [|split].
    + intros Hg. apply Herr. unfold Property_add. by rewrite Hg.
    + intros c. by apply Herr.
    + intros Hg H1 H2 Hb. apply Herr. unfold Property_add.
      rewrite Hg. simpl. by rewrite H1, bind_Ok, H2, bind_Ok, Hb.
  - intros Hc c. unfold op_add. rewrite Hc.
    replace (mro_lookup LinFunc "__add__") with (Some LinFunc) by (symmetry; compute_done).
    unfold LinFunc_add, ProxFunc_add, Property_add.
    replace (isinstance f Map) with true; [done|].
    unfold isinstance. rewrite Hc. symmetry. compute_done.
Qed.

End Errors.

Lemma composition_errors_witness :
  op_mul Toy.py Toy.scale2 (VOp Toy.plain_map) = Raise (ValueError InconsistentComposeShapes).
Proof.
  destruct (composition_errors Toy.py Toy.scale2 Toy.plain_map 3 2) as (_ & _ & He).
  apply He; [vm_compute; reflexivity | vm_compute; reflexivity | vm_compute; reflexivity | lia].
Defined.

Lemma sum_errors_witness :
  op_add Toy.py Toy.scale2 (VOp Toy.plain_map) = Raise (ValueError InconsistentSumShapes).
Proof.
  assert (class_of Toy.scale2 ≠ LinFunc) as Hc.
  { assert (class_of Toy.scale2 = LinOp) as -> by (vm_compute; reflexivity). discriminate. }
  assert (∃ s1 s2, shape Toy.scale2 = Ok s1 ∧ shape Toy.plain_map = Ok s2 ∧
                   broadcast_sum_shapes s1 s2 = Ok (false, VNone)) as (s1 & s2 & H1 & H2 & H3).
  { eexists _, _. split; [reflexivity|]. split; [reflexivity|]. reflexivity. }
  destruct (sum_errors Toy.py Toy.scale2 Toy.plain_map s1 s2 VNone) as [He _].
  destruct (He Hc) as (_ & _ & Hs).
  apply Hs; [vm_compute; reflexivity | exact H1 | exact H2 | exact H3].
Defined.

(** ** The methods of a composition and of a sum *)

Section Synthesis.
Context `{H : Host} `{Im : !Imports}.
Variable dyn : binop → value → value → result value.

(** A loop that sets the attribute it visits leaves, under a visited
    name, what its body writes there. *)
Lemma for_each_written (l : list string) (body : op → string → result op)
    (name : string) (V : value) (o o' : op) :
  (∀ o1 p o2, p ∈ l → body o1 p = Ok o2 → o2 = o1 ∨ ∃ v, o2 = setattr o1 p v) →
  (∀ o1 o2, body o1 name = Ok o2 → o2 = setattr o1 name V) →
  name ∈ l → for_each l body o = Ok o' → dict_of o' !! name = Some V.
Proof.
  intros Hframe Hname. revert o.
  induction l as [|p l IH]; intros o Hin Hrun; [by apply elem_of_nil in Hin|].
  simpl in Hrun. apply bind_Ok_inv in Hrun as (o1 & H1 & Hrest).
  assert (∀ o1 q o2, q ∈ l → body o1 q = Ok o2 → o2 = o1 ∨ ∃ v, o2 = setattr o1 q v)
    as Hframe'.
  { intros ???? Hb. eapply Hframe; [apply elem_of_cons; by right | done]. }
  destruct (decide (name ∈ l)) as [Hl | Hl]; [by eapply IH|].
  apply elem_of_cons in Hin as [-> | Hin]; [|done].
  apply Hname in H1 as ->.
  eapply for_each_frame in Hrest as (_ & _ & Hd); [|exact Hframe'].
  rewrite Hd by done. rewrite dict_of_setattr. apply lookup_insert_eq.
Qed.

(** Every class below [Map] has the capability [apply]. *)
Lemma map_has_apply c : issubclass c Map = true → "apply" ∈ properties c.
Proof.
  intros (K & HK & ->)%map_class_properties. unfold _base_operators in HK.
  list_cases HK; rewrite properties_table; (compute_done).
Qed.

(** What [squeeze] returns carries, under a capability of the class it
    was called on, the attribute the instance had. *)
Lemma squeeze_keeps_attribute (o r : op) name (V : value) :
  name ∈ properties_of o → dict_of o !! name = Some V →
  squeeze dyn o = Ok r → dict_of r !! name = Some V.
Proof.
  intros Hp Hd (c & out & _ & _ & Hr)%squeeze_inv.
  case_bool_decide; [|by subst r].
  apply specialize_inv in Hr as [(-> & _) | (_ & _ & _ & sh & obj & _ & _ & _ & Hcopy)];
    [done|].
  destruct (Hcopy name Hp) as (v & Hv & ->). f_equal.
  unfold getattr in Hv. rewrite Hd in Hv. by injection Hv.
Qed.

(** X15: when [Property.__mul__] returns for two operators, the [apply]
    of the result is the composition: it evaluates [g.apply] and hands
    the value to [f.apply]. *)
Theorem composition_apply (f g r : op) :
  isinstance f Map = true → Property_mul_map dyn f (VOp g) = Ok r →
  ∀ x : arr,
    call_method dyn r "apply" (VArr x) =
    let* fa := getattr dyn f "apply" in
    let* ga := getattr dyn g "apply" in
    let* y := call1 ga (VArr x) in
    call1 fa y.
Proof.
  intros Hf (g' & a & m & n & Op & out0 & out1 & [= <-] & Hg & _ & _ & _ & _ &
             HOp & H0 & H1 & Hsq)%Property_mul_map_inv x.
  apply resolve_op_base in HOp.
  pose proof H0 as (Hc0 & _ & _)%construct_inv.
  pose proof H1 as (Hc1 & _ & _)%for_each_frame.
  2:{ intros o1 p o2 _. apply mul_step_body. }
  rewrite Hc0 in Hc1.
  assert ("apply" ∈ mul_shared f g m) as Hms.
  { unfold mul_shared.
    assert ("apply" ∈ (properties_of f ∩ properties_of g) ∖ ({["prox"]} : gset string)) as Ha.
    { apply elem_of_difference. split; [|by rewrite elem_of_singleton].
      apply elem_of_intersection. split; by apply map_has_apply. }
    destruct (_ && _); [apply elem_of_union; by left | done]. }
  assert ("apply" ∈ synthesized_props Op (mul_shared f g m)) as Hin.
  { unfold synthesized_props.
    apply elem_of_difference. split; [|by rewrite elem_of_singleton].
    destruct (bool_decide (Op ∈ [LinOp; DiffFunc; LinFunc])); [|done].
    apply elem_of_difference. split; [done | by rewrite elem_of_singleton]. }
  eapply (for_each_written _ _ "apply" (VMethod1 (fun arr =>
            let* fa := getattr dyn f "apply" in
            let* ga := getattr dyn g "apply" in
            let* y := call1 ga (VArr arr) in
            call1 fa y))) in H1.
  - eapply squeeze_keeps_attribute in Hsq; [| |exact H1].
    + unfold call_method, getattr. rewrite Hsq. reflexivity.
    + unfold properties_of. rewrite Hc1. unfold _base_operators in HOp.
      list_cases HOp; rewrite properties_table; (compute_done).
  - intros o1 p o2 _. apply mul_step_body.
  - intros o1 o2. unfold mul_step. rewrite decide_True by done. by intros [= <-].
  - by apply set_iter_elem.
Qed.

(** X16: every method that [Property.__add__] attaches is the same
    closure [composite_method]: it reads the loop variable [prop] when it
    is called, after the loop, so each attached method, [apply] included,
    adds what [f] and [g] return for the capability [p] that the loop
    over [shared_props] visited last. *)
Theorem sum_methods_late_bound (f g r : op) :
  isinstance f Map = true → Property_add dyn (VOp f) (VOp g) = Ok r →
  ∃ Op p,
    resolve_op ((properties_of f ∩ properties_of g) ∖ {["prox"]}) = Some Op ∧
    last (set_iter (synthesized_props Op
                      ((properties_of f ∩ properties_of g) ∖ {["prox"]}))) = Some p ∧
    (∀ name, name ∈ synthesized_props Op ((properties_of f ∩ properties_of g) ∖ {["prox"]}) →
             dict_of r !! name = Some (composite_method dyn f g p)) ∧
    ∀ x : arr,
      call_method dyn r "apply" (VArr x) =
      let* m1 := getattr dyn f p in
      let* u := call1 m1 (VArr x) in
      let* m2 := getattr dyn g p in
      let* v := call1 m2 (VArr x) in
      dyn Add u v.
Proof.
  intros Hf (f' & g' & s1 & s2 & sh & Op & out0 & out1 & [= <-] & [= <-] & Hg & _ & _ & _ &
             HOp & H0 & H1 & Hsq)%Property_add_inv.
  set (P := (properties_of f ∩ properties_of g) ∖ {["prox"]}) in *.
  assert (properties Op = P) as HP.
  { destruct (map_class_properties _ Hf) as (K1 & HK1 & E1).
    destruct (map_class_properties _ Hg) as (K2 & HK2 & E2).
    destruct (shared_base_kind K1 K2 HK1 HK2) as (Op' & HOpb & HP').
    assert (properties Op' = P) as HP'' by (unfold P, properties_of; by rewrite E1, E2).
    rewrite (resolve_op_match _ Op' HOpb HP'') in HOp. by injection HOp as <-. }
  pose proof H0 as (Hc0 & _ & _)%construct_inv.
  pose proof H1 as (Hc1 & _ & _)%for_each_frame.
  2:{ intros o1 q o2 _. apply add_loop_body. }
  rewrite Hc0 in Hc1.
  assert ("apply" ∈ synthesized_props Op P) as Hin.
  { unfold synthesized_props.
    assert ("apply" ∈ P) as Ha.
    { apply elem_of_difference. split; [|by rewrite elem_of_singleton].
      apply elem_of_intersection. split; by apply map_has_apply. }
    apply elem_of_difference. split; [|by rewrite elem_of_singleton].
    destruct (bool_decide (Op ∈ [LinOp; DiffFunc; LinFunc])); [|done].
    apply elem_of_difference. split; [done | by rewrite elem_of_singleton]. }
  destruct (last (set_iter (synthesized_props Op P))) as [p|] eqn:Hlast.
  2:{ apply last_None in Hlast. apply set_iter_elem in Hin. rewrite Hlast in Hin.
      by apply elem_of_nil in Hin. }
  assert (∀ name, name ∈ synthesized_props Op P →
                  dict_of r !! name = Some (composite_method dyn f g p)) as Hall.
  { intros name Hn.
    eapply (for_each_written _ _ name (composite_method dyn f g p)) in H1.
    - eapply squeeze_keeps_attribute in Hsq; [done| |exact H1].
      unfold properties_of. rewrite Hc1, HP. by eapply synthesized_props_sub.
    - intros o1 q o2 _. apply add_loop_body.
    - intros o1 o2. rewrite Hlast. simpl.
      rewrite bool_decide_eq_false_2; [by intros [= <-]|].
      apply synthesized_props_sub in Hn.
      assert (name ∈ capability_names) as Hcap.
      { apply (properties_capabilities Op). by rewrite HP. }
      apply capability_cases in Hcap.
      repeat destruct Hcap as [-> | Hcap]; try subst name; compute_refute.
    - by apply set_iter_elem. }
  exists Op, p. split; [done|]. split; [done|]. split; [done|].
  intros x. unfold call_method, getattr. rewrite (Hall "apply" Hin). reflexivity.
Qed.

End Synthesis.

Lemma composition_apply_witness :
  ∃ r, Property_mul_map Toy.py Toy.scale2 (VOp Toy.scale3) = Ok r ∧
       call_method Toy.py r "apply" (VArr (H := Toy.host) [Toy.q 1; Toy.q 1; Toy.q 1])
       = Ok (VArr (H := Toy.host) [Toy.q 6; Toy.q 6; Toy.q 6]).
Proof.
  assert (outcome (Property_mul_map Toy.py Toy.scale2 (VOp Toy.scale3)) = Ok tt) as Ho
    by (vm_compute; reflexivity).
  destruct (Property_mul_map Toy.py Toy.scale2 (VOp Toy.scale3)) as [r|e] eqn:E;
    [|discriminate Ho].
  assert (isinstance Toy.scale2 Map = true) as H1 by (vm_compute; reflexivity).
  exists r. split; [reflexivity|].
  rewrite (composition_apply Toy.py Toy.scale2 Toy.scale3 r H1 E).
  apply array_of_Ok. vm_compute. reflexivity.
Defined.

Lemma sum_methods_late_bound_witness :
  ∃ r p, Property_add Toy.py (VOp Toy.scale2) (VOp Toy.scale3) = Ok r ∧
         dict_of r !! "apply" = Some (composite_method Toy.py Toy.scale2 Toy.scale3 p) ∧
         dict_of r !! "adjoint" = Some (composite_method Toy.py Toy.scale2 Toy.scale3 p).
Proof.
  assert (outcome (Property_add Toy.py (VOp Toy.scale2) (VOp Toy.scale3)) = Ok tt) as Ho
    by (vm_compute; reflexivity).
  destruct (Property_add Toy.py (VOp Toy.scale2) (VOp Toy.scale3)) as [r|e] eqn:E;
    [|discriminate Ho].
  assert (isinstance Toy.scale2 Map = true) as H1 by (vm_compute; reflexivity).
  destruct (sum_methods_late_bound Toy.py Toy.scale2 Toy.scale3 r H1 E)
    as (Op & p & HOp & _ & Hall & _).
  assert (Op = LinOp) as ->.
  { assert (resolve_op ((properties_of Toy.scale2 ∩ properties_of Toy.scale3) ∖ {["prox"]})
            = Some LinOp) as HL by (vm_compute; reflexivity).
    rewrite HL in HOp. by injection HOp. }
  exists r, p. split; [reflexivity|]. split; apply Hall.
  - refine (bool_decide_unpack _ _). vm_compute. exact I.
  - refine (bool_decide_unpack _ _). vm_compute. exact I.
Defined.

(** ** The overrides of the functional kinds *)

Section Overrides.
Context `{H : Host} `{Im : !Imports}.
Variable dyn : binop → value → value → result value.

(** X17: the sum of a proximable functional and a linear functional,
    taken in either order, never returns an operator with one output row:
    [ProxFunc.__add__] specializes the sum to [ProxFunc] and ends on
    [squeeze], which is [Map.squeeze] and is refused on a [ProxFunc] with
    [shape[0] == 1].  What it returns otherwise is a [ProxFunc]. *)
Theorem prox_plus_linear_functional (f g r : op) :
  isinstance g LinFunc = true →
  (class_of f = ProxFunc ∧ op_add dyn f (VOp g) = Ok r) ∨
  (class_of g = LinFunc ∧ op_add dyn g (VOp f) = Ok r) →
  class_of r = ProxFunc ∧ shape_at r 0 ≠ Ok 1.
Proof.
  intros Hg Hr.
  assert (ProxFunc_add dyn (VOp f) (VOp g) = Ok r) as Hadd.
  { destruct Hr as [[Hc Hr] | [Hc Hr]]; unfold op_add in Hr; rewrite Hc in Hr.
    - by replace (mro_lookup ProxFunc "__add__") with (Some ProxFunc) in Hr
        by (symmetry; compute_done).
    - by replace (mro_lookup LinFunc "__add__") with (Some LinFunc) in Hr
        by (symmetry; compute_done). }
  clear Hr. unfold ProxFunc_add in Hadd. rewrite Hg in Hadd.
  apply bind_Ok_inv in Hadd as (r0 & _ & Hadd).
  apply bind_Ok_inv in Hadd as (r1 & H1 & Hsq).
  apply bind_Ok_inv in H1 as (s & Hs & [= <-]).
  assert (class_of s = ProxFunc) as Hcl.
  { by apply specialize_inv in Hs as [(-> & <- & _) | (Hc & _)]. }
  apply squeeze_inv in Hsq as (c & out & Hc & Hout & Hr).
  rewrite shape_at_setattr in Hc by done.
  rewrite class_of_setattr, Hcl, squeeze_out_table in Hout. injection Hout as <-.
  destruct (decide (c = 1)) as [-> | Hne].
  - exfalso. rewrite bool_decide_eq_true_2 in Hr by done.
    apply specialize_inv in Hr as [(_ & E & _) | (_ & _ & Hsub & _)].
    + rewrite class_of_setattr, Hcl in E. discriminate.
    + apply Hsub. rewrite properties_of_setattr. unfold properties_of.
      rewrite Hcl, !properties_table. split; [compute_done | compute_refute].
  - rewrite bool_decide_eq_false_2 in Hr by done. subst r.
    rewrite class_of_setattr, shape_at_setattr by done. split; [done|].
    rewrite Hc. by intros [= ->].
Qed.

(** X18: for an instance of [SelfAdjointOp], [OrthProjOp] or [PosDefOp]
    with no [adjoint] set on the instance, the [adjoint] found along the
    method resolution order is [SelfAdjointOp.adjoint], before
    [Adjoint.adjoint]: [adjoint(x)] is [apply(x)]. *)
Theorem self_adjoint_adjoint (f : op) (x : arr) :
  class_of f ∈ [SelfAdjointOp; OrthProjOp; PosDefOp] →
  dict_of f !! "adjoint" = None →
  call_method dyn f "adjoint" (VArr x) = call_method dyn f "apply" (VArr x).
Proof.
  intros Hc Hd. unfold call_method, getattr. rewrite Hd.
  destruct (dict_of f !! "apply") as [v|] eqn:Ha.
  - list_cases Hc;
      match goal with
      | H : _ = class_of f |- _ => rewrite <- H
      | H : class_of f = _ |- _ => rewrite H
      end;
      match goal with
      | |- context [mro_lookup ?c ?n] =>
          let r := eval vm_compute in (mro_lookup c n) in
          change (mro_lookup c n) with r
      end; cbv beta iota; unfold class_attr; simpl; unfold getattr0; by rewrite Ha.
  - list_cases Hc;
      match goal with
      | H : _ = class_of f |- _ => rewrite <- H
      | H : class_of f = _ |- _ => rewrite H
      end;
      repeat match goal with
      | |- context [mro_lookup ?c ?n] =>
          let r := eval vm_compute in (mro_lookup c n) in
          change (mro_lookup c n) with r
      end; cbv beta iota; unfold class_attr; simpl; unfold getattr0; rewrite Ha;
      match goal with
      | H : _ = class_of f |- _ => rewrite <- H
      | H : class_of f = _ |- _ => rewrite H
      end;
      repeat match goal with
      | |- context [mro_lookup ?c ?n] =>
          let r := eval vm_compute in (mro_lookup c n) in
          change (mro_lookup c n) with r
      end; reflexivity.
Qed.

End Overrides.

Lemma prox_plus_linear_functional_witness :
  ∃ r, op_add Toy.py (Toy.leaf ProxFunc [0; 2] []) (VOp (Toy.leaf LinFunc [0; 2] [])) = Ok r ∧
       class_of r = ProxFunc ∧ shape_at r 0 ≠ Ok 1.
Proof.
  assert (outcome (op_add Toy.py (Toy.leaf ProxFunc [0; 2] [])
                     (VOp (Toy.leaf LinFunc [0; 2] []))) = Ok tt) as Ho
    by (vm_compute; reflexivity).
  destruct (op_add Toy.py (Toy.leaf ProxFunc [0; 2] []) (VOp (Toy.leaf LinFunc [0; 2] [])))
    as [r|e] eqn:E; [|discriminate Ho].
  assert (isinstance (Toy.leaf LinFunc [0; 2] []) LinFunc = true) as H1
    by (vm_compute; reflexivity).
  assert (class_of (Toy.leaf ProxFunc [0; 2] []) = ProxFunc) as H2
    by (vm_compute; reflexivity).
  exists r. split; [reflexivity|].
  exact (prox_plus_linear_functional Toy.py (Toy.leaf ProxFunc [0; 2] [])
           (Toy.leaf LinFunc [0; 2] []) r H1 (or_introl (conj H2 E))).
Defined.

Lemma self_adjoint_adjoint_witness :
  call_method Toy.py (Toy.leaf PosDefOp [2; 2] [("apply", Toy.scale_by 2)]) "adjoint"
    (VArr (H := Toy.host) [Toy.q 1; Toy.q 1])
  = call_method Toy.py (Toy.leaf PosDefOp [2; 2] [("apply", Toy.scale_by 2)]) "apply"
      (VArr (H := Toy.host) [Toy.q 1; Toy.q 1]).
Proof.
  apply (self_adjoint_adjoint Toy.py).
  - assert (class_of (Toy.leaf PosDefOp [2; 2] [("apply", Toy.scale_by 2)]) = PosDefOp) as ->
      by (vm_compute; reflexivity).
    rewrite !elem_of_cons. tauto.
  - assert (is_Some (dict_of (Toy.leaf PosDefOp [2; 2] [("apply", Toy.scale_by 2)])
                       !! "adjoint") → False) as Hn.
    { refine (bool_decide_eq_false_1 _ _). vm_compute. reflexivity. }
    destruct (dict_of _ !! "adjoint"); [destruct Hn; eauto | reflexivity].
Defined.

(** ** Freshly constructed instances *)

Section Fresh.
Context `{H : Host} `{Im : !Imports}.
Variable dyn : binop → value → value → result value.

Ltac eval_mro_lookup :=
  repeat match goal with
  | |- context [mro_lookup ?c ?n] =>
      let r := eval vm_compute in (mro_lookup c n) in
      change (mro_lookup c n) with r
  end; cbv beta iota.

(** X19: an instance that a library constructor has just built has no
    [apply] of its own: for every kind below [Map], [apply(x)] raises
    [NotImplementedError] until a method is set on the instance or a
    subclass provides it. *)
Theorem fresh_apply_not_implemented (c : pyclass) (sh : value) (o : op) (x : arr) :
  issubclass c Map = true → construct c sh = Ok o →
  call_method dyn o "apply" (VArr x) = Raise NotImplementedError.
Proof.
  intros Hc Ho. pose proof (construct_frame _ _ _ "apply" Ho) as Hd.
  pose proof Ho as (Hcl & _ & k & Hk & Hrun)%construct_inv.
  unfold call_method, getattr. rewrite Hd by compute_refute. rewrite Hcl.
  rewrite issubclass_Map in Hc.
  destruct c; try discriminate Hc; eval_mro_lookup; try reflexivity.
  exfalso. revert Hk Hrun. eval_init. intros [= <-]. by rewrite run_init_S.
Qed.

(** X20: the diff-Lipschitz bound of a fresh instance depends on the
    initialisers its class runs: a [DiffMap] reports [+∞]; a [DiffFunc]
    has no bound at all, no initialiser along [DiffFunc], [Func], [Map]
    setting one, and [diff_lipschitz()] raises [NotImplementedError]. *)
Theorem diff_lipschitz_by_kind (sh : value) (o : op) :
  (construct DiffMap sh = Ok o → diff_lipschitz dyn o = Ok (VNum inf)) ∧
  (construct DiffFunc sh = Ok o →
   dict_of o !! "_diff_lipschitz" = None ∧
   diff_lipschitz dyn o = Raise NotImplementedError).
Proof.
  split.
  - intros Ho. pose proof (construct_frame _ _ _ "diff_lipschitz" Ho) as Hd.
    pose proof Ho as (Hcl & _ & k & Hk & Hrun)%construct_inv.
    revert Hk Hrun. eval_init. intros [= <-]. rewrite run_init_S. unfold init_body.
    intros (d1 & _ & Hd1)%bind_Ok_inv. injection Hd1 as Hd1.
    unfold diff_lipschitz, getattr. rewrite Hd by compute_refute. rewrite Hcl.
    eval_mro_lookup. unfold class_attr, class_attr0, call0, dict_lookup. simpl.
    by rewrite <- Hd1, lookup_insert_eq.
  - intros Ho. pose proof (construct_frame _ _ _ "diff_lipschitz" Ho) as Hd.
    pose proof Ho as (Hcl & _ & k & Hk & Hrun)%construct_inv.
    assert (dict_of o !! "_diff_lipschitz" = None) as Hn.
    { revert Hk Hrun. eval_init. intros [= <-].
      rewrite run_init_S. unfold init_body. eval_init.
      rewrite run_init_S. unfold init_body. eval_init.
      intros (t & _ & Hrun)%bind_Ok_inv.
      apply bind_Ok_inv in Hrun as (t' & _ & Hrun).
      rewrite run_init_S in Hrun. unfold init_body in Hrun.
      apply bind_Ok_inv in Hrun as (t'' & _ & Hrun).
      case_bool_decide; [discriminate|]. injection Hrun as <-.
      by rewrite !lookup_insert_ne, lookup_empty. }
    split; [done|].
    unfold diff_lipschitz, getattr. rewrite Hd by compute_refute. rewrite Hcl.
    eval_mro_lookup. reflexivity.
Qed.

End Fresh.

Lemma fresh_apply_not_implemented_witness :
  ∃ o, construct (H := Toy.host) LinOp (VTuple [2; 2]) = Ok o ∧
       call_method Toy.py o "apply" (VArr (H := Toy.host) [Toy.q 1; Toy.q 1])
       = Raise NotImplementedError.
Proof.
  assert (is_ok (construct (H := Toy.host) LinOp (VTuple [2; 2])) = true) as Hk
    by (vm_compute; reflexivity).
  destruct (construct (H := Toy.host) LinOp (VTuple [2; 2])) as [o|e] eqn:E;
    [|discriminate Hk].
  assert (issubclass LinOp Map = true) as H1 by (vm_compute; reflexivity).
  exists o. split; [reflexivity|].
  exact (fresh_apply_not_implemented Toy.py LinOp (VTuple [2; 2]) o
           [Toy.q 1; Toy.q 1] H1 E).
Defined.

Lemma diff_lipschitz_by_kind_witness :
  ∃ o, construct (H := Toy.host) DiffFunc (VTuple [1; 2]) = Ok o ∧
       diff_lipschitz Toy.py o = Raise NotImplementedError.
Proof.
  assert (is_ok (construct (H := Toy.host) DiffFunc (VTuple [1; 2])) = true) as Hk
    by (vm_compute; reflexivity).
  destruct (construct (H := Toy.host) DiffFunc (VTuple [1; 2])) as [o|e] eqn:E;
    [|discriminate Hk].
  destruct (diff_lipschitz_by_kind Toy.py (VTuple [1; 2]) o) as [_ H2].
  destruct (H2 E) as [_ Hd].
  exists o. split; [reflexivity | exact Hd].
Defined.

(** ** Subtraction *)

Section Subtraction.
Context `{H : Host} `{Im : !Imports}.
Variable dyn : binop → value → value → result value.

(** [Property.__add__] raises when the left operand is no operator
    instance, as it is when [LinFunc.__add__] swaps the operands. *)
Lemma Property_add_swapped_raises (v : value) (f : op) :
  (∀ g, v ≠ VOp g) → raises (Property_add dyn v (VOp f)).
Proof.
  intros Hv. unfold Property_add.
  destruct (negb (isinstance f Map)); [by eexists|].
  apply raises_bind. intros s1. apply raises_bind. intros s2.
  apply raises_bind. intros [valid out_shape].
  destruct (negb valid); [by eexists|].
  destruct v as [| | | | | | | |g]; try (by eexists). by destruct (Hv g).
Qed.

(** [f + v] raises for every [v] that is no operator instance. *)
Lemma op_add_not_operator (f : op) (v : value) :
  (∀ g, v ≠ VOp g) → raises (op_add dyn f v).
Proof.
  intros Hv.
  assert (raises (Property_add dyn (VOp f) v)) as [e He].
  { unfold Property_add. destruct v as [| | | | | | | |g]; try (by eexists).
    by destruct (Hv g). }
  unfold op_add. destruct (mro_lookup (class_of f) "__add__") as [k|]; [|by eexists].
  destruct k; try (by eexists); cbv beta iota.
  - unfold ProxFunc_add. rewrite He. by eexists.
  - unfold LinFunc_add, ProxFunc_add.
    destruct (Property_add_swapped_raises v f Hv) as [e' ->]. by eexists.
Qed.

(** X3: [f - other] never returns.  For an operator [other],
    [other.__neg__()] is a scalar multiplication, which raises.  A number
    or an array is negated and handed to [f.__add__], which raises
    [NotImplementedError], or [AttributeError] when [f] is a [LinFunc],
    whose [__add__] swaps the operands; any other value has no
    [__neg__]. *)
Theorem subtraction_raises (f : op) (other : value) :
  raises (op_sub dyn f other) ∧
  (class_of f ≠ LinFunc →
   ∀ c : scalar, op_sub dyn f (VNum c) = Raise NotImplementedError) ∧
  (class_of f = LinFunc → ∀ c : scalar, op_sub dyn f (VNum c) = Raise AttributeError).
Proof.
  split; [|split].
  - unfold op_sub. destruct other as [|b|c|a|t|m|m|ps m|g];
      try (by eexists); try (apply op_add_not_operator; by intros g).
    + simpl. destruct (a_neg a) as [r|e]; simpl; [|by eexists].
      apply op_add_not_operator. by intros g.
    + destruct (op_mul_real dyn g (VNum (of_Z (-1))) (of_Z (-1)) eq_refl) as [e He].
      unfold op_neg. rewrite He. by eexists.
  - intros Hc c. unfold op_sub, value_neg. rewrite bind_Ok. unfold op_add.
    destruct (add_dispatch _ Hc) as [-> | ->]; reflexivity.
  - intros Hc c. unfold op_sub, value_neg. rewrite bind_Ok. unfold op_add. rewrite Hc.
    replace (mro_lookup LinFunc "__add__") with (Some LinFunc) by (symmetry; compute_done).
    unfold LinFunc_add, ProxFunc_add, Property_add.
    replace (isinstance f Map) with true; [done|].
    unfold isinstance. rewrite Hc. symmetry. compute_done.
Qed.

End Subtraction.

Lemma subtraction_raises_witness :
  op_sub Toy.py Toy.scale2 (VNum (H := Toy.host) (Toy.q 3)) = Raise NotImplementedError.
Proof.
  destruct (subtraction_raises (H := Toy.host) Toy.py Toy.scale2 VNone) as (_ & Hn & _).
  apply Hn.
  assert (class_of Toy.scale2 = LinOp) as -> by (vm_compute; reflexivity). discriminate.
Defined.

(** ** The Jacobian of a squeezed linear operator *)

Section SqueezedJacobian.
Context `{H : Host} `{Im : !Imports}.
Variable dyn : binop → value → value → result value.

(** C9 (what the code does): squeezing a linear operator [f] with one
    output row, other than an instance of [LinFunc] itself, gives a new
    [LinFunc] that is linear and has diff-Lipschitz bound 0, but whose
    [jacobian(x)] returns [f], not the instance it is called on.
    [specialize] is written to leave [jacobian] out when the target is
    single-valued; its test [cast_to.has("single_valued")] is made on the
    letters of the string and always fails, so the bound method
    [f.jacobian] is copied onto the new instance. *)
Theorem squeezed_linear_jacobian (f r : op) (x : arr) :
  isinstance f LinOp = true → dict_of f !! "jacobian" = None →
  shape_at f 0 = Ok 1 → ¬ (class_of f = LinFunc ∧ subclassed f = false) →
  squeeze dyn f = Ok r →
  class_of r = LinFunc ∧ r ≠ f ∧
  call_method dyn r "jacobian" (VArr x) = Ok (VOp f) ∧
  diff_lipschitz dyn r = Ok (VNum (of_Z 0)).
Proof.
  intros Hf Hj Hs Hown (c & out & Hc & Hout & Hr)%squeeze_inv.
  rewrite Hs in Hc. injection Hc as <-. rewrite bool_decide_eq_true_2 in Hr by done.
  assert (out = LinFunc) as ->.
  { revert Hf Hout. unfold isinstance. rewrite issubclass_LinOp, squeeze_out_table.
    destruct (class_of f); try discriminate; by intros _ [= <-]. }
  apply specialize_inv in Hr
    as [(_ & E1 & E2) | (Hcl & Hu & _ & sh & obj & _ & Hobj & Hframe & Hcopy)].
  { by destruct Hown. }
  assert ("jacobian" ∈ properties_of f) as Hp.
  { revert Hf. unfold isinstance, properties_of. rewrite issubclass_LinOp, properties_table.
    destruct (class_of f); try discriminate; intros _; (compute_done). }
  destruct (Hcopy _ Hp) as (v & Hv & Hd).
  unfold getattr in Hv. rewrite Hj in Hv.
  destruct (linear_lookup _ Hf) as [Hl _]. rewrite Hl in Hv. injection Hv as <-.
  split; [done|]. split.
  { intros ->. apply Hown. by split. }
  split.
  - unfold call_method, getattr. rewrite Hd. reflexivity.
  - assert (issubclass LinFunc LinOp = true) as HL by (compute_done).
    pose proof (construct_linear_dlip _ _ _ HL Hobj) as Hdl.
    pose proof (construct_frame _ _ _ "diff_lipschitz" Hobj) as Hm.
    assert (∀ name, name ∈ ["_diff_lipschitz"; "diff_lipschitz"] → name ∉ properties_of f)
      as Hn.
    { intros name Hin Hq. apply properties_capabilities, capability_not_private in Hq.
      apply Hq. revert Hin. rewrite !elem_of_cons, !elem_of_nil. tauto. }
    unfold diff_lipschitz, getattr.
    rewrite Hframe by (apply Hn; rewrite !elem_of_cons; tauto).
    rewrite Hm by compute_refute. rewrite Hcl.
    replace (mro_lookup LinFunc "diff_lipschitz") with (Some DiffMap)
      by (symmetry; compute_done).
    unfold class_attr, class_attr0, call0, dict_lookup. simpl.
    rewrite Hframe by (apply Hn; rewrite !elem_of_cons; tauto).
    by rewrite Hdl.
Qed.

End SqueezedJacobian.

Lemma squeezed_linear_jacobian_witness :
  ∃ r, squeeze Toy.py Toy.row_sum = Ok r ∧ class_of r = LinFunc ∧ r ≠ Toy.row_sum ∧
       call_method Toy.py r "jacobian" (VArr (H := Toy.host) [Toy.q 1; Toy.q 1])
       = Ok (VOp Toy.row_sum).
Proof.
  assert (outcome (squeeze Toy.py Toy.row_sum) = Ok tt) as Ho by (vm_compute; reflexivity).
  destruct (squeeze Toy.py Toy.row_sum) as [r|e] eqn:E; [|discriminate Ho].
  assert (isinstance Toy.row_sum LinOp = true) as H1 by (vm_compute; reflexivity).
  assert (dict_of Toy.row_sum !! "jacobian" = None) as H2.
  { assert (is_Some (dict_of Toy.row_sum !! "jacobian") → False) as Hn.
    { refine (bool_decide_eq_false_1 _ _). vm_compute. reflexivity. }
    destruct (dict_of Toy.row_sum !! "jacobian"); [destruct Hn; eauto | reflexivity]. }
  assert (shape_at Toy.row_sum 0 = Ok 1) as H3 by (vm_compute; reflexivity).
  assert (¬ (class_of Toy.row_sum = LinFunc ∧ subclassed Toy.row_sum = false)) as H4.
  { intros [Hc _]. revert Hc.
    assert (class_of Toy.row_sum = LinOp) as -> by (vm_compute; reflexivity). discriminate. }
  destruct (squeezed_linear_jacobian Toy.py Toy.row_sum r [Toy.q 1; Toy.q 1] H1 H2 H3 H4 E)
    as (Hc & Hne & Hj & _).
  exists r. split; [reflexivity|]. split; [exact Hc|]. split; [exact Hne | exact Hj].
Defined.

(** ** The [prox] of a sum with a linear functional *)

Section SumProx.
Context `{H : Host} `{Im : !Imports}.
Variable dyn : binop → value → value → result value.

(** The [prox] that [ProxFunc.__add__] attaches for a linear functional
    names its parameters [x] and [tau]; it is the [prox] of every sum
    that [ProxFunc.__add__] returns. *)
Lemma sum_prox_parameters (f : value) (g r : op) :
  isinstance g LinFunc = true → ProxFunc_add dyn f (VOp g) = Ok r →
  class_of r = ProxFunc ∧
  ∃ m, getattr dyn r "prox" = Ok (VMethod2 ("x", "tau") m).
Proof.
  intros Hg Hadd. unfold ProxFunc_add in Hadd. rewrite Hg in Hadd.
  apply bind_Ok_inv in Hadd as (r0 & _ & Hadd).
  apply bind_Ok_inv in Hadd as (r1 & H1 & Hsq).
  apply bind_Ok_inv in H1 as (s & Hs & [= <-]).
  assert (class_of s = ProxFunc) as Hcl.
  { by apply specialize_inv in Hs as [(-> & <- & _) | (Hc & _)]. }
  apply squeeze_inv in Hsq as (c & out & Hc & Hout & Hr).
  rewrite class_of_setattr, Hcl, squeeze_out_table in Hout. injection Hout as <-.
  destruct (decide (c = 1)) as [-> | Hne].
  - exfalso. rewrite bool_decide_eq_true_2 in Hr by done.
    apply specialize_inv in Hr as [(_ & E & _) | (_ & _ & Hsub & _)].
    + rewrite class_of_setattr, Hcl in E. discriminate.
    + apply Hsub. rewrite properties_of_setattr. unfold properties_of.
      rewrite Hcl, !properties_table. split; [compute_done | compute_refute].
  - rewrite bool_decide_eq_false_2 in Hr by done. subst r.
    rewrite class_of_setattr. split; [done|].
    eexists. unfold getattr. rewrite dict_of_setattr, lookup_insert_eq. reflexivity.
Qed.

End SumProx.

Lemma fenchel_prox_moreau_witness :
  fenchel_prox (binop_eval 8) Toy.half_sq (VArr [Toy.q 3; Toy.q 6]) (VNum (Toy.q 2))
    = Ok (VArr [Toy.q 1; Toy.q 2]) ∧
  ∃ r, ProxFunc_add (binop_eval 8) (VOp (Toy.leaf ProxFunc [0; 2] []))
         (VOp (Toy.leaf LinFunc [0; 2] [])) = Ok r ∧
       fenchel_prox (binop_eval 8) r (VArr [Toy.q 3; Toy.q 6]) (VNum (Toy.q 2))
       = Raise TypeError.
Proof.
  assert (Toy.map_op (fun a => Toy.entry_op Div a (Toy.q 2)) [Toy.q 3; Toy.q 6]
          = Ok [Toy.Fin (3 # 2); Toy.q 3]) as H2 by reflexivity.
  assert (Toy.num_op Div (Toy.q 1) (Toy.q 2) = Ok (Toy.Fin (1 # 2))) as H3
    by reflexivity.
  split.
  - assert (∃ m, getattr (binop_eval 8) Toy.half_sq "prox" = Ok (VMethod2 ("arr", "tau") m) ∧
                m [Toy.Fin (3 # 2); Toy.q 3] (Toy.Fin (1 # 2)) = Ok (VArr [Toy.q 1; Toy.q 2]))
      as (m & Hm & Hp).
    { eexists. split; [reflexivity|]. reflexivity. }
    assert (issubclass (class_of Toy.half_sq) Proximal = true) as H1
      by (vm_compute; reflexivity).
    assert (Toy.map_op (Toy.entry_op Mul (Toy.q 2)) [Toy.q 1; Toy.q 2]
            = Ok [Toy.q 2; Toy.q 4]) as H4 by reflexivity.
    assert (Toy.zip_op Sub [Toy.q 3; Toy.q 6] [Toy.q 2; Toy.q 4] = Ok [Toy.q 1; Toy.q 2])
      as H5 by reflexivity.
    exact (proj1 (fenchel_prox_moreau 7 Toy.half_sq [Toy.q 3; Toy.q 6]
             [Toy.Fin (3 # 2); Toy.q 3] (Toy.q 2) (Toy.Fin (1 # 2)) ("arr", "tau") m
             H1 Hm H2 H3) eq_refl [Toy.q 1; Toy.q 2] [Toy.q 2; Toy.q 4] [Toy.q 1; Toy.q 2]
             Hp H4 H5).
  - assert (outcome (ProxFunc_add (binop_eval 8) (VOp (Toy.leaf ProxFunc [0; 2] []))
                       (VOp (Toy.leaf LinFunc [0; 2] []))) = Ok tt) as Ho
      by (vm_compute; reflexivity).
    destruct (ProxFunc_add (binop_eval 8) (VOp (Toy.leaf ProxFunc [0; 2] []))
                (VOp (Toy.leaf LinFunc [0; 2] []))) as [r|e] eqn:E; [|discriminate Ho].
    assert (isinstance (Toy.leaf LinFunc [0; 2] []) LinFunc = true) as Hg
      by (vm_compute; reflexivity).
    destruct (sum_prox_parameters (binop_eval 8) _ _ r Hg E) as (Hc & m & Hm).
    assert (issubclass (class_of r) Proximal = true) as H1
      by (rewrite Hc; vm_compute; reflexivity).
    exists r. split; [reflexivity|].
    apply (proj2 (fenchel_prox_moreau 7 r [Toy.q 3; Toy.q 6]
             [Toy.Fin (3 # 2); Toy.q 3] (Toy.q 2) (Toy.Fin (1 # 2)) ("x", "tau") m
             H1 Hm H2 H3)).
    discriminate.
Defined.
